(** * Question store API: list / create / update / delete handlers

    A shallow embedding of [src/app/api/questions/route.ts] (GET, POST, PUT)
    and of the [DELETE] handler of the [questions/[id]] route, together with
    the properties of the option upsert-and-reconcile routine.

    The handlers talk to a relational store through [client.execute]; they
    are embedded as programs of a small state-and-error monad over the
    store, so that [try { ... } catch] and the order of the statements are
    the ones of the source. *)

From Stdlib Require Import ZArith Lia Ascii String.
From stdpp Require Import base option list strings gmap fin_maps.

Local Open Scope Z_scope.

Set Warnings "-register-all".

(** ** JSON values *)

(** A JSON text is identified with the value it denotes: [JSON.stringify]
    followed by [JSON.parse] (or SQLite's [json_object] followed by
    [JSON.parse]) is the identity on these trees.  Numbers are integers:
    ids are, and no property below depends on fractional price modifiers. *)
Inductive json : Type :=
  | JNull
  | JBool (b : bool)
  | JNum (n : Z)
  | JStr (s : string)
  | JArr (items : list json)
  | JObj (members : list (string * json)).

(** ** Request types (the interfaces [OptionIn] and [QuestionIn]) *)

(** An optional or nullable field is an [option]: the source reads every one
    of them through [??], which treats [undefined] and [null] alike.  Ids
    are integers, in the range where [Number] is exact. *)
Record OptionIn : Type := mkOptionIn {
  opt_id : option Z;
  opt_label : string;
  opt_next_question_id : option Z;
  opt_price_modifier : option Z
}.

Record QuestionIn : Type := mkQuestionIn {
  q_id : option Z;
  q_field : string;
  q_text : string;
  q_subtext : option string;
  q_type : string;
  q_hint : option string;
  q_validationKey : option string;
  q_input : option (list (string * json));
  q_next_question_id : option Z;
  q_options : option (list OptionIn)
}.

(** ** Strings: [String.prototype.trim] and truthiness *)

(** A string is the sequence of its code units, here the ones below 256.
    In that range the white space and line terminators of ECMAScript are
    TAB, LF, VT, FF, CR, SP and NBSP. *)
Definition is_white_space (c : ascii) : bool :=
  let n := N_of_ascii c in
  ((9 <=? n) && (n <=? 13) || (n =? 32) || (n =? 160))%N.

Fixpoint trim_start (s : string) : string :=
  match s with
  | EmptyString => EmptyString
  | String c r => if is_white_space c then trim_start r else s
  end.

Fixpoint trim_end (s : string) : string :=
  match s with
  | EmptyString => EmptyString
  | String c r =>
      match trim_end r with
      | EmptyString => if is_white_space c then EmptyString else String c EmptyString
      | r' => String c r'
      end
  end.

Definition trim (s : string) : string := trim_end (trim_start s).

(** A string is truthy unless it is empty. *)
Definition truthy (s : string) : bool :=
  match s with
  | EmptyString => false
  | String _ _ => true
  end.

(** A string made of white space only (the empty string included). *)
Fixpoint whitespace_only (s : string) : Prop :=
  match s with
  | EmptyString => True
  | String c r => is_white_space c = true ∧ whitespace_only r
  end.

(** ** Numbers: [Number] of a row id *)

(** 2^53: up to it, in absolute value, every integer is a double. *)
Definition two53 : Z := 9007199254740992.

(** The multiple of [2 ^ e] nearest to [a >= 0], the even one of the two
    when [a] is half way. *)
Definition round_half_even (a e : Z) : Z :=
  let q := a / 2 ^ e in
  let r := a mod 2 ^ e in
  let half := 2 ^ (e - 1) in
  (if (r <? half) || ((r =? half) && Z.even q) then q else q + 1) * 2 ^ e.

(** [Number(n)] for a bigint [n], as an integer: the nearest double, which
    keeps 53 significant bits.  Row ids have 64 bits, so the result is
    finite. *)
Definition Number (n : Z) : Z :=
  let a := Z.abs n in
  if a <? two53 then n
  else Z.sgn n * round_half_even a (Z.log2 a - 52).

(** ** The relational store *)

(** Modelled from the spec: the schema and the connection ([lib/db]) are not
    part of the sources.  The two tables are the ones of the persisted
    schema, [questions(id, field, text, subtext, type, hint, validation_key,
    input_config, next_question_id)] and [question_options(id, question_id,
    label, next_question_id, price_modifier)], each keyed by its integer
    surrogate key [id]. *)
Record question_row : Type := mkQuestionRow {
  qr_field : string;
  qr_text : string;
  qr_subtext : string;
  qr_type : string;
  qr_hint : string;
  qr_validation_key : option string;
  qr_input_config : option json;
  qr_next_question_id : option Z
}.

Record option_row : Type := mkOptionRow {
  or_question_id : Z;
  or_label : string;
  or_next_question_id : option Z;
  or_price_modifier : option Z
}.

Record tables : Type := mkTables {
  questions : gmap Z question_row;
  question_options : gmap Z option_row
}.

(** The statements the handlers send, one constructor per SQL text of the
    source, with its bound parameters. *)
Inductive stmt : Type :=
  | SelectQuestionsWithOptions
  | InsertQuestion (r : question_row)
  | InsertOption (r : option_row)
  | SelectQuestion (id : Z)
  | UpdateQuestion (r : question_row) (id : Z)
  | UpsertOption (id : option Z) (r : option_row)
  | DeleteOptionsNotIn (question_id : Z) (ids : list Z)
  | DeleteQuestion (id : option Z).

(** A result row: the columns of [questions], and the aggregated [options]
    column when the statement selects one. *)
Record Row : Type := mkRow {
  row_id : Z;
  row_cols : question_row;
  row_options : option json
}.

Record ResultSet : Type := mkResultSet {
  rows : list Row;
  lastInsertRowid : Z
}.

(** Modelled from the spec: ids are assigned by the store.  The key given to
    a row inserted without one is one more than the largest key in use, and
    1 in an empty table. *)
Definition max_rowid {A : Type} (m : gmap Z A) : option Z :=
  match (map_to_list m).*1 with
  | [] => None
  | k :: ks => Some (foldr Z.max k ks)
  end.

Definition new_rowid {A : Type} (m : gmap Z A) : Z :=
  match max_rowid m with
  | None => 1
  | Some k => k + 1
  end.

Definition json_of_num (n : option Z) : json :=
  match n with
  | Some k => JNum k
  | None => JNull
  end.

(** [json_object('id', o.id, 'label', o.label, 'next_question_id', ...,
    'price_modifier', ...)] on one joined row; [None] is the row of NULLs a
    LEFT JOIN produces for a question without a matching option. *)
Definition json_object_of_option (o : option (Z * option_row)) : json :=
  match o with
  | Some (k, r) =>
      JObj [("id"%string, JNum k);
            ("label"%string, JStr (or_label r));
            ("next_question_id"%string, json_of_num (or_next_question_id r));
            ("price_modifier"%string, json_of_num (or_price_modifier r))]
  | None =>
      JObj [("id"%string, JNull);
            ("label"%string, JNull);
            ("next_question_id"%string, JNull);
            ("price_modifier"%string, JNull)]
  end.

(** [questions q LEFT JOIN question_options o ON q.id = o.question_id],
    restricted to the question [qid]. *)
Definition left_join_options (qid : Z) (os : gmap Z option_row)
    : list (option (Z * option_row)) :=
  match filter (λ kr : Z * option_row, or_question_id kr.2 = qid) (map_to_list os) with
  | [] => [None]
  | l => Some <$> l
  end.

Definition select_row (os : gmap Z option_row) (kq : Z * question_row) : Row :=
  {| row_id := kq.1;
     row_cols := kq.2;
     row_options := Some (JArr (json_object_of_option <$> left_join_options kq.1 os)) |}.

(** [ON CONFLICT(id) DO UPDATE SET label, next_question_id, price_modifier]:
    the conflicting row keeps its [question_id]. *)
Definition on_conflict_update (old excluded : option_row) : option_row :=
  {| or_question_id := or_question_id old;
     or_label := or_label excluded;
     or_next_question_id := or_next_question_id excluded;
     or_price_modifier := or_price_modifier excluded |}.

(** [INSERT INTO question_options (id, ...) VALUES (?, ...) ON CONFLICT(id)
    DO UPDATE ...]: without an id the row gets a new key; with the id of a
    stored row that row is updated; with an unused id the row is inserted
    under it. *)
Definition upsert_rows (id : option Z) (r : option_row) (m : gmap Z option_row)
    : gmap Z option_row :=
  match id with
  | None => <[new_rowid m := r]> m
  | Some k =>
      match m !! k with
      | Some old => <[k := on_conflict_update old r]> m
      | None => <[k := r]> m
      end
  end.

(** The last insert rowid after that statement; [last] is the one before,
    which the update of a conflicting row leaves as it is. *)
Definition upsert_rowid (id : option Z) (m : gmap Z option_row) (last : Z) : Z :=
  match id with
  | None => new_rowid m
  | Some k =>
      match m !! k with
      | Some _ => last
      | None => k
      end
  end.

(** [DELETE FROM question_options WHERE question_id = ? AND id NOT IN (...)] *)
Definition delete_not_in (qid : Z) (ids : list Z) (m : gmap Z option_row)
    : gmap Z option_row :=
  filter (λ kr : Z * option_row, ¬ (or_question_id kr.2 = qid ∧ kr.1 ∉ ids)) m.

(** The effect of one statement on the tables, and its result set; [last]
    is the connection's last insert rowid, which a statement that inserts
    no row leaves as it is.  Modelled from the spec: deleting a question
    removes its option rows by the referential cascade of the store. *)
Definition run_stmt (s : stmt) (t : tables) (last : Z) : tables * ResultSet :=
  match s with
  | SelectQuestionsWithOptions =>
      (t, {| rows := select_row (question_options t) <$> map_to_list (questions t);
             lastInsertRowid := last |})
  | InsertQuestion r =>
      let k := new_rowid (questions t) in
      ({| questions := <[k := r]> (questions t);
          question_options := question_options t |},
       {| rows := []; lastInsertRowid := k |})
  | InsertOption r =>
      let k := new_rowid (question_options t) in
      ({| questions := questions t;
          question_options := <[k := r]> (question_options t) |},
       {| rows := []; lastInsertRowid := k |})
  | SelectQuestion id =>
      (t, {| rows := match questions t !! id with
                     | Some q => [ {| row_id := id; row_cols := q; row_options := None |} ]
                     | None => []
                     end;
             lastInsertRowid := last |})
  | UpdateQuestion r id =>
      ({| questions := alter (λ _, r) id (questions t);
          question_options := question_options t |},
       {| rows := []; lastInsertRowid := last |})
  | UpsertOption id r =>
      ({| questions := questions t;
          question_options := upsert_rows id r (question_options t) |},
       {| rows := []; lastInsertRowid := upsert_rowid id (question_options t) last |})
  | DeleteOptionsNotIn qid ids =>
      ({| questions := questions t;
          question_options := delete_not_in qid ids (question_options t) |},
       {| rows := []; lastInsertRowid := last |})
  | DeleteQuestion None =>
      (t, {| rows := []; lastInsertRowid := last |})
  | DeleteQuestion (Some id) =>
      ({| questions := delete id (questions t);
          question_options :=
            filter (λ kr : Z * option_row, or_question_id kr.2 ≠ id) (question_options t) |},
       {| rows := []; lastInsertRowid := last |})
  end.

(** The store client: the tables, the connection's last insert rowid, and
    the statements executed so far, oldest first. *)
Record client : Type := mkClient {
  db : tables;
  last_rowid : Z;
  executed : list stmt
}.

(** A store that never rejects a statement. *)
Definition accept_all (s : stmt) (t : tables) : option string := None.

(** ** Responses *)

Record QuestionOut : Type := mkQuestionOut {
  out_id : Z;
  out_field : string;
  out_text : string;
  out_subtext : string;
  out_type : string;
  out_hint : string;
  out_validationKey : option string;
  out_input : option json;
  out_next_question_id : option Z;
  out_options : json
}.

Inductive payload : Type :=
  | ErrorBody (error : string)
  | OkBody
  | QuestionsBody (qs : list QuestionOut)
  | RowBody (r : option Row).

Record NextResponse : Type := mkResponse {
  status : nat;
  body : payload
}.

(** ** Handlers *)

Section Handlers.

(** Modelled from the spec: a statement may fail in the store (a constraint
    of the schema, a lost connection); [rejects s t] is the error message
    when the store in state [t] refuses [s]. *)
Variable rejects : stmt → tables → option string.

(** A computation over the client that either returns or throws an error
    message; what was written before a throw stays written. *)
Definition M (A : Type) : Type := client → (string + A) * client.

Definition ret {A : Type} (a : A) : M A := λ c, (inr a, c).

Definition bind {A B : Type} (m : M A) (k : A → M B) : M B :=
  λ c, match m c with
       | (inr a, c') => k a c'
       | (inl e, c') => (inl e, c')
       end.

(** An async handler: it always resolves to a response. *)
Definition Handler : Type := client → NextResponse * client.

Definition respond (r : NextResponse) : Handler := λ c, (r, c).

(** [try { m } catch (err) { handler(err) }] *)
Definition try_catch (m : M NextResponse) (handler : string → Handler) : Handler :=
  λ c, match m c with
       | (inr r, c') => (r, c')
       | (inl e, c') => handler e c'
       end.

Notation "x <- m ;; k" := (bind m (λ x, k))
  (at level 100, m at next level, right associativity).

(** [await client.execute(sql, args)] *)
Definition execute (s : stmt) : M ResultSet :=
  λ c, match rejects s (db c) with
       | Some e => (inl e, c)
       | None =>
           let '(t, rs) := run_stmt s (db c) (last_rowid c) in
           (inr rs, {| db := t;
                       last_rowid := lastInsertRowid rs;
                       executed := executed c ++ [s] |})
       end.

(** [for (const x of xs) { await f(x) }] *)
Fixpoint for_of {A : Type} (xs : list A) (f : A → M unit) : M unit :=
  match xs with
  | [] => ret tt
  | x :: xs' => _ <- f x ;; for_of xs' f
  end.

(** The same loop, threading a local variable that each iteration updates. *)
Fixpoint for_of_acc {A S : Type} (xs : list A) (f : S → A → M S) (acc : S) : M S :=
  match xs with
  | [] => ret acc
  | x :: xs' => acc' <- f acc x ;; for_of_acc xs' f acc'
  end.

Definition json_response (st : nat) (b : payload) : NextResponse :=
  {| status := st; body := b |}.

(** [body.options?.some(opt => !opt.label.trim())] *)
Definition some_blank_label (b : QuestionIn) : bool :=
  match q_options b with
  | Some os => existsb (λ opt, negb (truthy (trim (opt_label opt)))) os
  | None => false
  end.

(** The eight parameters bound to the question columns by POST and PUT. *)
Definition question_params (b : QuestionIn) : question_row :=
  {| qr_field := q_field b;
     qr_text := q_text b;
     qr_subtext := default EmptyString (q_subtext b);
     qr_type := q_type b;
     qr_hint := default EmptyString (q_hint b);
     qr_validation_key := q_validationKey b;
     qr_input_config := JObj <$> q_input b;
     qr_next_question_id := q_next_question_id b |}.

(** The parameters bound to the option columns by POST and PUT. *)
Definition option_params (qId : Z) (o : OptionIn) : option_row :=
  {| or_question_id := qId;
     or_label := opt_label o;
     or_next_question_id := opt_next_question_id o;
     or_price_modifier := Some (default 0 (opt_price_modifier o)) |}.

Definition question_of_row (row : Row) : QuestionOut :=
  {| out_id := row_id row;
     out_field := qr_field (row_cols row);
     out_text := qr_text (row_cols row);
     out_subtext := qr_subtext (row_cols row);
     out_type := qr_type (row_cols row);
     out_hint := qr_hint (row_cols row);
     out_validationKey := qr_validation_key (row_cols row);
     (* row.input_config ? JSON.parse(String(row.input_config)) : null *)
     out_input := qr_input_config (row_cols row);
     out_next_question_id := qr_next_question_id (row_cols row);
     (* row.options ? JSON.parse(String(row.options)) : [] -- a JSON text is
        never the empty string, so it is truthy; NULL is not *)
     out_options := match row_options row with
                    | Some j => j
                    | None => JArr []
                    end |}.

(** [err instanceof Error ? err.message : 'Internal Server Error']: what the
    store throws is an [Error], whose message is [err]. *)
Definition server_error (err : string) : Handler :=
  respond (json_response 500 (ErrorBody err)).

Definition GET : Handler :=
  try_catch
    (result <- execute SelectQuestionsWithOptions ;;
     ret (json_response 200 (QuestionsBody (question_of_row <$> rows result))))
    server_error.

(** The body of the option loop of POST. *)
Definition insert_option (qId : Z) (o : OptionIn) : M unit :=
  _ <- execute (InsertOption (option_params qId o)) ;;
  ret tt.

(** [qId] is [Number(insertQ.lastInsertRowid)]; the ids of questions are
    generated by the store alone (no statement of the handlers binds one),
    one by one from 1, and are taken to stay below 2^53, where [Number] is
    exact. *)
Definition POST (b : QuestionIn) : Handler :=
  if some_blank_label b then
    respond (json_response 400 (ErrorBody "Option labels cannot be empty"))
  else
    try_catch
      (insertQ <- execute (InsertQuestion (question_params b)) ;;
       let qId := lastInsertRowid insertQ in
       _ <- match q_options b with
            | Some (o :: os) => for_of (o :: os) (insert_option qId)
            | _ => ret tt
            end ;;
       created <- execute (SelectQuestion qId) ;;
       ret (json_response 201 (RowBody (head (rows created)))))
      server_error.

(** The body of the option loop of PUT: upsert, then push the id onto
    [seenIds]: the id of the option when it has one, which is a number
    already, and otherwise [Number(result.lastInsertRowid)], the bigint row
    id converted to a number. *)
Definition upsert_option (questionId : Z) (seenIds : list Z) (o : OptionIn)
    : M (list Z) :=
  result <- execute (UpsertOption (opt_id o) (option_params questionId o)) ;;
  let newId := default (Number (lastInsertRowid result)) (opt_id o) in
  ret (seenIds ++ [newId]).

Definition PUT (b : QuestionIn) : Handler :=
  match q_id b with
  | None => respond (json_response 400 (ErrorBody "id is required for PUT"))
  | Some questionId =>
      if some_blank_label b then
        respond (json_response 400 (ErrorBody "Option labels cannot be empty"))
      else
        try_catch
          (_ <- execute (UpdateQuestion (question_params b) questionId) ;;
           seenIds <- for_of_acc (default [] (q_options b))
                                 (upsert_option questionId) [] ;;
           _ <- match seenIds with
                | [] => ret tt
                | _ :: _ =>
                    _ <- execute (DeleteOptionsNotIn questionId seenIds) ;; ret tt
                end ;;
           ret (json_response 200 OkBody))
          server_error
  end.

(** [id] is [Number(params.id)] when that is an integer, and [None] when it
    is not (no row has such an id). *)
Definition DELETE (id : option Z) : Handler :=
  try_catch
    (_ <- execute (DeleteQuestion id) ;;
     ret (json_response 200 OkBody))
    server_error.

End Handlers.

(** ** The option loops as functions on the option table *)

(** The statement PUT sends for one incoming option. *)
Definition upsert_stmt (questionId : Z) (o : OptionIn) : stmt :=
  UpsertOption (opt_id o) (option_params questionId o).

(** One iteration of the upsert loop of PUT: the table after the statement,
    and [seenIds] after the push, with the same [Number] conversion of a
    generated row id. *)
Definition upsert_step (questionId : Z)
    (st : gmap Z option_row * list Z) (o : OptionIn) : gmap Z option_row * list Z :=
  (upsert_rows (opt_id o) (option_params questionId o) st.1,
   st.2 ++ [default (Number (new_rowid st.1)) (opt_id o)]).

Definition upsert_loop (questionId : Z) (os : list OptionIn)
    (st : gmap Z option_row * list Z) : gmap Z option_row * list Z :=
  foldl (upsert_step questionId) st os.

(** Every row id the loop can meet is a double: the payload has at most
    2^53 options, and the stored ids and the ids of the payload lie between
    -2^53 and 2^53 minus the length of the payload, so that the ids the
    store generates during the loop do not exceed 2^53. *)
Definition exact_ids (m : gmap Z option_row) (os : list OptionIn) : Prop :=
  let n := Z.of_nat (length os) in
  n ≤ two53 ∧
  (∀ k, is_Some (m !! k) → - two53 ≤ k ≤ two53 - n) ∧
  (∀ o k, o ∈ os → opt_id o = Some k → - two53 ≤ k ≤ two53 - n).

(** The same condition as a test. *)
Definition in_exact_range (n k : Z) : bool :=
  (- two53 <=? k) && (k <=? two53 - n).

Definition exact_idsb (m : gmap Z option_row) (os : list OptionIn) : bool :=
  let n := Z.of_nat (length os) in
  (n <=? two53)
  && forallb (in_exact_range n) (map_to_list m).*1
  && forallb (λ o, from_option (in_exact_range n) true (opt_id o)) os.

(** Step 3 of PUT, guarded by [if (seenIds.length)]. *)
Definition delete_removed (questionId : Z) (st : gmap Z option_row * list Z)
    : gmap Z option_row :=
  match st.2 with
  | [] => st.1
  | _ :: _ => delete_not_in questionId st.2 st.1
  end.

(** The option table after a PUT that ran to its end. *)
Definition reconcile (questionId : Z) (os : list OptionIn) (m : gmap Z option_row)
    : gmap Z option_row :=
  delete_removed questionId (upsert_loop questionId os (m, [])).

(** The option table after the insert loop of POST. *)
Definition insert_loop (qId : Z) (os : list OptionIn) (m : gmap Z option_row)
    : gmap Z option_row :=
  foldl (λ m o, <[new_rowid m := option_params qId o]> m) m os.

(** The statement POST sends for one option. *)
Definition insert_stmt (qId : Z) (o : OptionIn) : stmt :=
  InsertOption (option_params qId o).

(** The last option of the payload that carries the id [k]. *)
Fixpoint last_with_id (k : Z) (os : list OptionIn) : option OptionIn :=
  match os with
  | [] => None
  | o :: os' =>
      match last_with_id k os' with
      | Some o' => Some o'
      | None => if decide (opt_id o = Some k) then Some o else None
      end
  end.

(** The JSON object SQLite builds for the all-NULL row of a LEFT JOIN. *)
Definition null_option : json := json_object_of_option None.

(** ** Sample data *)

Definition empty_client : client :=
  {| db := {| questions := ∅; question_options := ∅ |};
     last_rowid := 0;
     executed := [] |}.

(** The example of the specification: a question without options. *)
Definition age_question : QuestionIn :=
  {| q_id := None; q_field := "age"; q_text := "Your age?"; q_subtext := None;
     q_type := "number"; q_hint := None; q_validationKey := None;
     q_input := None; q_next_question_id := None; q_options := None |}.

Definition colour_question (id : option Z) (os : list OptionIn) : QuestionIn :=
  {| q_id := id; q_field := "colour"; q_text := "Which colour?"; q_subtext := None;
     q_type := "radio"; q_hint := None; q_validationKey := None;
     q_input := None; q_next_question_id := None; q_options := Some os |}.

Definition new_option (label : string) : OptionIn :=
  {| opt_id := None; opt_label := label;
     opt_next_question_id := None; opt_price_modifier := None |}.

Definition old_option (id : Z) (label : string) : OptionIn :=
  {| opt_id := Some id; opt_label := label;
     opt_next_question_id := Some (-1); opt_price_modifier := Some 5 |}.

(** A store with two questions (ids 1 and 2); question 1 owns the options
    1 and 2, question 2 owns the option 3. *)
Definition sample_client : client :=
  let c1 := (POST accept_all (colour_question None [new_option "A"; new_option "B"])
                  empty_client).2 in
  (POST accept_all (colour_question None [new_option "C"]) c1).2.

(** Updates of question 1 of [sample_client]: one that relabels the option
    1, drops the option 2 and adds an option; one without options; one with
    a blank label; one whose options all carry their ids; one that names
    the option 3, which belongs to question 2. *)
Definition relabel_payload : QuestionIn :=
  colour_question (Some 1) [old_option 1 "A2"; new_option "D"].

Definition no_options_payload : QuestionIn := colour_question (Some 1) [].

Definition blank_payload (id : option Z) : QuestionIn :=
  colour_question id [new_option "A"; new_option "  "].

Definition resolved_payload : QuestionIn :=
  colour_question (Some 1) [old_option 1 "A2"; old_option 2 "B2"].

Definition foreign_payload : QuestionIn :=
  colour_question (Some 1) [old_option 1 "A"; old_option 2 "B"; old_option 3 "taken"].

(** A store that refuses every write to the option table and accepts the
    other statements. *)
Definition reject_option_writes (s : stmt) (t : tables) : option string :=
  match s with
  | InsertOption _ | UpsertOption _ _ | DeleteOptionsNotIn _ _ =>
      Some "constraint failed"%string
  | _ => None
  end.

(** A store that refuses the insert of an option labelled "B" and accepts
    the other statements. *)
Definition reject_label_B (s : stmt) (t : tables) : option string :=
  match s with
  | InsertOption r =>
      if String.eqb (or_label r) "B" then Some "constraint failed"%string else None
  | _ => None
  end.

(** A store that refuses every statement. *)
Definition reject_all (s : stmt) (t : tables) : option string :=
  Some "connection lost"%string.

(** ** The admin editor ([src/app/admin/questions/page.tsx]) *)

Module Page.

(** The type [Question] of the page.  Its options are of the page's type
    [Option], which has the fields of [OptionIn] (the two are kept in sync
    by the source); the scalar fields are all present. *)
Record Question : Type := mkQuestion {
  id : option Z;
  field : string;
  text : string;
  subtext : string;
  type : string;
  hint : string;
  validationKey : option string;
  input : option (list (string * string));
  next_question_id : option Z;
  options : list OptionIn
}.

Definition blankQuestion : Question :=
  {| id := None;
     field := EmptyString;
     text := EmptyString;
     subtext := EmptyString;
     type := "text";
     hint := EmptyString;
     validationKey := None;
     input := None;
     next_question_id := None;
     options := [] |}.

(** The three [useState] cells of the page; [questions] holds what the
    listing returned, as it came. *)
Record State : Type := mkState {
  questions : list QuestionOut;
  editModalOpen : bool;
  selectedQuestion : option Question
}.

Definition setQuestions (data : list QuestionOut) (st : State) : State :=
  {| questions := data;
     editModalOpen := editModalOpen st;
     selectedQuestion := selectedQuestion st |}.

Definition setEditModalOpen (opened : bool) (st : State) : State :=
  {| questions := questions st;
     editModalOpen := opened;
     selectedQuestion := selectedQuestion st |}.

Definition setSelectedQuestion (q : option Question) (st : State) : State :=
  {| questions := questions st;
     editModalOpen := editModalOpen st;
     selectedQuestion := q |}.

Definition openEditModal (question : Question) (st : State) : State :=
  setEditModalOpen true (setSelectedQuestion (Some question) st).

Definition openAddModal (st : State) : State :=
  setEditModalOpen true (setSelectedQuestion (Some blankQuestion) st).

(** [{ ...selectedQuestion, options: opts }] *)
Definition with_options (q : Question) (opts : list OptionIn) : Question :=
  {| id := id q;
     field := field q;
     text := text q;
     subtext := subtext q;
     type := type q;
     hint := hint q;
     validationKey := validationKey q;
     input := input q;
     next_question_id := next_question_id q;
     options := opts |}.

Definition addOption (st : State) : State :=
  match selectedQuestion st with
  | None => st
  | Some q =>
      setSelectedQuestion
        (Some (with_options q
                 (options q ++ [ {| opt_id := None;
                                    opt_label := "New Option";
                                    opt_next_question_id := None;
                                    opt_price_modifier := Some 0 |} ])))
        st
  end.

(** [xs.filter((x, i) => p(x, i))], from the index [i] on. *)
Fixpoint filter_index {A : Type} (p : A → nat → bool) (xs : list A) (i : nat)
    : list A :=
  match xs with
  | [] => []
  | x :: xs' =>
      if p x i then x :: filter_index p xs' (S i) else filter_index p xs' (S i)
  end.

Definition removeOption (idx : nat) (st : State) : State :=
  match selectedQuestion st with
  | None => st
  | Some q =>
      setSelectedQuestion
        (Some (with_options q
                 (filter_index (λ _ i, negb (i =? idx)%nat) (options q) 0)))
        st
  end.

(** What the server reads from [JSON.stringify(selectedQuestion)]. *)
Definition request_body (q : Question) : QuestionIn :=
  {| q_id := id q;
     q_field := field q;
     q_text := text q;
     q_subtext := Some (subtext q);
     q_type := type q;
     q_hint := Some (hint q);
     q_validationKey := validationKey q;
     q_input :=
       match input q with
       | Some members => Some ((λ kv : string * string, (kv.1, JStr kv.2)) <$> members)
       | None => None
       end;
     q_next_question_id := next_question_id q;
     q_options := Some (options q) |}.

(** [res.ok]: the status is in the range 200-299. *)
Definition ok (res : NextResponse) : bool :=
  ((200 <=? status res) && (status res <=? 299))%nat.

Section Server.

Variable rejects : stmt → tables → option string.

(** [Array.isArray(data) ? data : []]: the body of a listing is an array,
    an error body is not. *)
Definition fetchQuestions (st : State) : client → State * client :=
  λ c, let '(res, c') := GET rejects c in
       (setQuestions match body res with
                     | QuestionsBody data => data
                     | _ => []
                     end st, c').

(** The request of [saveQuestion]: PUT when [selectedQuestion.id] is
    truthy (present and not 0), POST otherwise. *)
Definition submit (q : Question) : Handler :=
  match id q with
  | Some k => if (k =? 0)%Z then POST rejects (request_body q)
              else PUT rejects (request_body q)
  | None => POST rejects (request_body q)
  end.

Definition saveQuestion (st : State) : client → State * client :=
  match selectedQuestion st with
  | None => λ c, (st, c)
  | Some q =>
      let hasEmptyLabels :=
        existsb (λ opt, negb (truthy (trim (opt_label opt)))) (options q) in
      if hasEmptyLabels then λ c, (st, c)
      else λ c,
        let '(res, c1) := submit q c in
        if ok res then fetchQuestions (setEditModalOpen false st) c1
        else (st, c1)
  end.

End Server.

End Page.

(** A page whose editor holds the aggregate [q]. *)
Definition editing (q : Page.Question) : Page.State :=
  Page.openEditModal q
    {| Page.questions := []; Page.editModalOpen := false;
       Page.selectedQuestion := None |}.

(** Question 1 of [sample_client] as the editor holds it, with its two
    options. *)
Definition colour_copy : Page.Question :=
  {| Page.id := Some 1; Page.field := "colour"; Page.text := "Which colour?";
     Page.subtext := EmptyString; Page.type := "radio"; Page.hint := EmptyString;
     Page.validationKey := None; Page.input := None;
     Page.next_question_id := None;
     Page.options := [old_option 1 "A"; old_option 2 "B"] |}.

(** An update of question 1 without [options] field, one of a question
    that does not exist, and one that keeps the option 1 only. *)
Definition scalar_payload : QuestionIn :=
  {| q_id := Some 1; q_field := "colour"; q_text := "Which shade?"; q_subtext := None;
     q_type := "text"; q_hint := None; q_validationKey := None;
     q_input := None; q_next_question_id := Some (-1); q_options := None |}.

Definition reworded_payload : QuestionIn :=
  {| q_id := Some 1; q_field := "colour"; q_text := "Which shade?"; q_subtext := None;
     q_type := "radio"; q_hint := Some "pick one"%string; q_validationKey := None;
     q_input := None; q_next_question_id := None;
     q_options := Some [new_option "D"] |}.

Definition orphan_payload : QuestionIn := colour_question (Some 7) [new_option "X"].

Definition keep_first_payload : QuestionIn :=
  colour_question (Some 1) [old_option 1 "A2"].

(** Runs on the sample store. *)
Definition relabelled : NextResponse * client :=
  PUT accept_all relabel_payload sample_client.

Definition kept_first : NextResponse * client :=
  PUT accept_all keep_first_payload sample_client.

Definition orphaned : NextResponse * client :=
  PUT accept_all orphan_payload sample_client.

Definition failed_update : NextResponse * client :=
  PUT reject_option_writes reworded_payload sample_client.

Definition created_age : NextResponse * client :=
  POST accept_all age_question sample_client.

Definition created_twice : NextResponse * client :=
  POST accept_all age_question created_age.2.

Definition failed_second : NextResponse * client :=
  POST reject_label_B (colour_question None [new_option "A"; new_option "B"])
    empty_client.

Definition deleted_first : NextResponse * client :=
  DELETE accept_all (Some 1) sample_client.

(** The stored rows of the options 1, 2 and 3 of [sample_client]. *)
Definition stored_option (question_id : Z) (label : string) : option_row :=
  {| or_question_id := question_id; or_label := label;
     or_next_question_id := None; or_price_modifier := Some 0 |}.

(** A working copy of question 1 with a blank label. *)
Definition blank_copy : Page.Question :=
  Page.with_options colour_copy [old_option 1 "A"; new_option " "].

(** A store in which question 1 owns one option, under the id 2^53 that a
    PUT chose for it, and an update of question 1 that sends one new
    option and does not resend the stored one. *)
Definition big_client : client :=
  (PUT accept_all (colour_question (Some 1) [old_option two53 "old"]) sample_client).2.

Definition add_payload : QuestionIn := colour_question (Some 1) [new_option "D"].

(** * Properties *)

(** ** Row ids *)

Lemma foldr_max_upper (k : Z) (ks : list Z) :
  ∀ x, x ∈ k :: ks → x ≤ foldr Z.max k ks.
Proof.
  induction ks as [|y ks IH]; intros x Hx; simpl.
  - apply list_elem_of_singleton in Hx. lia.
  - assert (k ≤ foldr Z.max k ks) by (apply IH, elem_of_cons; by left).
    rewrite !elem_of_cons in Hx. destruct Hx as [->|[->|Hx]]; [lia|lia|].
    assert (x ≤ foldr Z.max k ks) by (apply IH, elem_of_cons; by right). lia.
Qed.

Lemma foldr_max_elem (k : Z) (ks : list Z) : foldr Z.max k ks ∈ k :: ks.
Proof.
  induction ks as [|y ks IH]; simpl; [apply elem_of_cons; by left|].
  rewrite !elem_of_cons in *.
  destruct (Z.max_spec y (foldr Z.max k ks)) as [[_ ->]|[_ ->]]; tauto.
Qed.

Lemma elem_of_keys {A : Type} (m : gmap Z A) (k : Z) :
  k ∈ (map_to_list m).*1 ↔ is_Some (m !! k).
Proof.
  rewrite list_elem_of_fmap. split.
  - intros [[k' a] [-> Hin]]. apply elem_of_map_to_list in Hin. by exists a.
  - intros [a Ha]. exists (k, a). split; [done|]. by apply elem_of_map_to_list.
Qed.

Lemma max_rowid_Some {A : Type} (m : gmap Z A) (M : Z) :
  max_rowid m = Some M ↔ is_Some (m !! M) ∧ ∀ k, is_Some (m !! k) → k ≤ M.
Proof.
  unfold max_rowid. split.
  - destruct ((map_to_list m).*1) as [|k ks] eqn:E; [done|].
    intros [= <-]. split.
    + apply elem_of_keys. rewrite E. apply foldr_max_elem.
    + intros x Hx. apply elem_of_keys in Hx. rewrite E in Hx.
      by apply foldr_max_upper.
  - intros [HM Hub].
    destruct ((map_to_list m).*1) as [|k ks] eqn:E.
    + apply elem_of_keys in HM. rewrite E in HM. by apply elem_of_nil in HM.
    + f_equal. apply Z.le_antisymm.
      * apply Hub, elem_of_keys. rewrite E. apply foldr_max_elem.
      * apply foldr_max_upper. rewrite <- E. by apply elem_of_keys.
Qed.

Lemma new_rowid_above {A : Type} (m : gmap Z A) (k : Z) :
  is_Some (m !! k) → k < new_rowid m.
Proof.
  intros Hk. unfold new_rowid.
  destruct (max_rowid m) as [M|] eqn:E.
  - apply max_rowid_Some in E as [_ Hub]. specialize (Hub k Hk). lia.
  - unfold max_rowid in E. apply elem_of_keys in Hk.
    destruct ((map_to_list m).*1); [by apply elem_of_nil in Hk | done].
Qed.

Lemma new_rowid_fresh {A : Type} (m : gmap Z A) : m !! new_rowid m = None.
Proof.
  destruct (m !! new_rowid m) as [a|] eqn:E; [|done].
  assert (new_rowid m < new_rowid m) by (apply new_rowid_above; eauto). lia.
Qed.

Lemma new_rowid_insert {A : Type} (m : gmap Z A) (a : A) :
  new_rowid (<[new_rowid m := a]> m) = new_rowid m + 1.
Proof.
  set (n := new_rowid m).
  assert (max_rowid (<[n := a]> m) = Some n) as E.
  { apply max_rowid_Some. split.
    - rewrite lookup_insert_eq. eauto.
    - intros k Hk. destruct (decide (n = k)) as [->|Hne]; [lia|].
      rewrite lookup_insert_ne in Hk by done.
      apply new_rowid_above in Hk. fold n in Hk. lia. }
  unfold new_rowid at 1. by rewrite E.
Qed.

(** ** Blank labels *)

Lemma trim_start_whitespace (s : string) :
  trim_start s = EmptyString ↔ whitespace_only s.
Proof.
  induction s as [|c r IH]; simpl; [done|].
  destruct (is_white_space c); [|split; [done | by intros [? _]]].
  rewrite IH. tauto.
Qed.

Lemma trim_end_cons (c : ascii) (r : string) :
  is_white_space c = false → trim_end (String c r) ≠ EmptyString.
Proof. intros Hc. simpl. rewrite Hc. by destruct (trim_end r). Qed.

Lemma trim_blank (s : string) :
  truthy (trim s) = false ↔ whitespace_only s.
Proof.
  rewrite <- trim_start_whitespace. unfold trim. split.
  - intros Ht. destruct (trim_start s) as [|c r] eqn:E; [done|].
    assert (is_white_space c = false) as Hc.
    { destruct s as [|c' r']; [done|]. simpl in E.
      destruct (is_white_space c') eqn:Hc'; [|congruence].
      clear Hc'. revert E. induction r' as [|c2 r2 IH2]; simpl; [done|].
      destruct (is_white_space c2) eqn:Hc2; [done|]. congruence. }
    pose proof (trim_end_cons c r Hc) as Hne.
    by destruct (trim_end (String c r)).
  - by intros ->.
Qed.

Lemma some_blank_label_true (b : QuestionIn) :
  some_blank_label b = true ↔
  ∃ os o, q_options b = Some os ∧ o ∈ os ∧ whitespace_only (opt_label o).
Proof.
  unfold some_blank_label. split.
  - destruct (q_options b) as [os|]; [|done].
    intros H. apply existsb_exists in H as (o & Hin & Ho).
    exists os, o. split; [done|]. split; [by apply list_elem_of_In|].
    apply trim_blank. by apply negb_true_iff.
  - intros (os & o & -> & Hin & Ho). apply existsb_exists.
    exists o. split; [by apply list_elem_of_In|].
    apply negb_true_iff. by apply trim_blank.
Qed.

Lemma some_blank_label_false (b : QuestionIn) :
  some_blank_label b = false ↔
  ∀ os o, q_options b = Some os → o ∈ os → ¬ whitespace_only (opt_label o).
Proof.
  split.
  - intros Hf os o Hos Hin Hw.
    assert (some_blank_label b = true) by (apply some_blank_label_true; eauto).
    congruence.
  - intros H. destruct (some_blank_label b) eqn:E; [|done].
    apply some_blank_label_true in E as (os & o & Hos & Hin & Hw).
    by destruct (H os o).
Qed.

(** ** The monad *)

Section Properties.

Variable rejects : stmt → tables → option string.

Lemma execute_ok (s : stmt) (c c' : client) (rs : ResultSet) :
  execute rejects s c = (inr rs, c') →
  rejects s (db c) = None ∧
  rs = (run_stmt s (db c) (last_rowid c)).2 ∧
  c' = {| db := (run_stmt s (db c) (last_rowid c)).1;
          last_rowid := lastInsertRowid rs;
          executed := executed c ++ [s] |}.
Proof.
  unfold execute. destruct (rejects s (db c)); [done|].
  destruct (run_stmt s (db c) (last_rowid c)) as [t rs']. by intros [= <- <-].
Qed.

Lemma execute_throws (s : stmt) (c c' : client) (e : string) :
  execute rejects s c = (inl e, c') → rejects s (db c) = Some e ∧ c' = c.
Proof.
  unfold execute. destruct (rejects s (db c)).
  - by intros [= <- <-].
  - by destruct (run_stmt s (db c) (last_rowid c)).
Qed.

Lemma execute_accepted (s : stmt) (c : client) :
  rejects s (db c) = None →
  execute rejects s c =
    (inr (run_stmt s (db c) (last_rowid c)).2,
     {| db := (run_stmt s (db c) (last_rowid c)).1;
        last_rowid := lastInsertRowid (run_stmt s (db c) (last_rowid c)).2;
        executed := executed c ++ [s] |}).
Proof.
  intros H. unfold execute. rewrite H.
  by destruct (run_stmt s (db c) (last_rowid c)).
Qed.

Lemma bind_ok {A B : Type} (m : M A) (k : A → M B) (c c' : client) (b : B) :
  bind m k c = (inr b, c') →
  ∃ a c1, m c = (inr a, c1) ∧ k a c1 = (inr b, c').
Proof.
  unfold bind. destruct (m c) as [[e|a] c1]; [done|]. eauto.
Qed.

Lemma try_catch_not_500 (m : M NextResponse) (c c' : client) (r : NextResponse) :
  try_catch m server_error c = (r, c') → status r ≠ 500%nat →
  m c = (inr r, c').
Proof.
  unfold try_catch. destruct (m c) as [[e|a] c1].
  - unfold server_error, respond. intros [= <- <-]. simpl. done.
  - by intros [= <- <-].
Qed.

(** ** The option loop of PUT *)

Lemma upsert_option_ok (qid : Z) (seen seen' : list Z) (o : OptionIn) (c c' : client) :
  upsert_option rejects qid seen o c = (inr seen', c') →
  (question_options (db c'), seen') = upsert_step qid (question_options (db c), seen) o ∧
  questions (db c') = questions (db c) ∧
  executed c' = executed c ++ [upsert_stmt qid o].
Proof.
  unfold upsert_option. intros H.
  apply bind_ok in H as (rs & c1 & Hex & Hret).
  apply execute_ok in Hex as (_ & -> & ->).
  unfold ret in Hret. injection Hret as <- <-. simpl.
  unfold upsert_step, upsert_rowid. simpl.
  split; [|done]. f_equal. by destruct (opt_id o).
Qed.

Lemma upsert_for_ok (qid : Z) (os : list OptionIn) :
  ∀ (seen seen' : list Z) (c c' : client),
  for_of_acc os (upsert_option rejects qid) seen c = (inr seen', c') →
  (question_options (db c'), seen') = upsert_loop qid os (question_options (db c), seen) ∧
  questions (db c') = questions (db c) ∧
  executed c' = executed c ++ (upsert_stmt qid <$> os).
Proof.
  induction os as [|o os IH]; intros seen seen' c c' H; simpl in H.
  - unfold ret in H. injection H as <- <-. by rewrite app_nil_r.
  - apply bind_ok in H as (seen1 & c1 & Hstep & Hrest).
    apply upsert_option_ok in Hstep as (Hst & Hq & Hlog).
    apply IH in Hrest as (Hst' & Hq' & Hlog').
    split; [|split].
    + rewrite Hst'. unfold upsert_loop. simpl. by rewrite Hst.
    + congruence.
    + rewrite Hlog', Hlog. by rewrite <- app_assoc.
Qed.

(** A PUT answered with 200 went through all of its steps: the question
    row was updated, the options were upserted and reconciled. *)
Lemma PUT_200 (b : QuestionIn) (c c' : client) (r : NextResponse) :
  PUT rejects b c = (r, c') → status r = 200%nat →
  ∃ qid seen,
    q_id b = Some qid ∧
    some_blank_label b = false ∧
    r = json_response 200 OkBody ∧
    questions (db c') = alter (λ _, question_params b) qid (questions (db c)) ∧
    seen = (upsert_loop qid (default [] (q_options b)) (question_options (db c), [])).2 ∧
    question_options (db c') = reconcile qid (default [] (q_options b)) (question_options (db c)) ∧
    executed c' = executed c
      ++ UpdateQuestion (question_params b) qid
      :: (upsert_stmt qid <$> default [] (q_options b))
      ++ match seen with [] => [] | _ :: _ => [DeleteOptionsNotIn qid seen] end.
Proof.
  unfold PUT. intros H Hst.
  destruct (q_id b) as [qid|]; [|by injection H as <- <-].
  destruct (some_blank_label b); [by injection H as <- <-|].
  apply try_catch_not_500 in H; [|by rewrite Hst].
  apply bind_ok in H as (rs & c1 & Hupd & H).
  apply execute_ok in Hupd as (_ & _ & ->).
  apply bind_ok in H as (seen & c2 & Hloop & H).
  apply upsert_for_ok in Hloop as (Hloop & Hq & Hlog). simpl in Hloop, Hq, Hlog.
  apply bind_ok in H as ([] & c3 & Hdel & H).
  unfold ret in H. injection H as <- <-.
  exists qid, seen. split; [done|]. split; [done|]. split; [done|].
  assert (seen = (upsert_loop qid (default [] (q_options b)) (question_options (db c), [])).2)
    as Hseen by (by rewrite <- Hloop).
  unfold reconcile, delete_removed. rewrite <- Hloop. simpl.
  destruct seen as [|k seen].
  - unfold ret in Hdel. injection Hdel as <-.
    rewrite Hq, Hlog, app_nil_r. by rewrite <- app_assoc.
  - apply bind_ok in Hdel as (rs' & c4 & Hdel & Hret).
    apply execute_ok in Hdel as (_ & _ & ->).
    unfold ret in Hret. injection Hret as <-. simpl.
    rewrite Hq, Hlog. split; [done|]. split; [done|]. split; [done|].
    by rewrite <- !app_assoc.
Qed.

(** A store that accepts every statement answers a well-formed PUT
    with 200. *)
Lemma upsert_for_accepted (qid : Z) (os : list OptionIn) :
  (∀ s t, rejects s t = None) →
  ∀ (seen : list Z) (c : client),
  ∃ seen' c', for_of_acc os (upsert_option rejects qid) seen c = (inr seen', c').
Proof.
  intros Hacc. induction os as [|o os IH]; intros seen c; simpl.
  - by eexists _, _.
  - unfold bind at 1. unfold upsert_option at 1. unfold bind at 1.
    rewrite execute_accepted by apply Hacc. simpl. apply IH.
Qed.

Lemma PUT_accepted (b : QuestionIn) (c : client) (qid : Z) :
  (∀ s t, rejects s t = None) →
  q_id b = Some qid → some_blank_label b = false →
  (PUT rejects b c).1 = json_response 200 OkBody.
Proof.
  intros Hacc Hid Hblank. unfold PUT. rewrite Hid, Hblank.
  unfold try_catch, bind.
  rewrite execute_accepted by apply Hacc.
  match goal with
  | |- context [for_of_acc ?os ?f ?s ?c0] =>
      destruct (upsert_for_accepted qid os Hacc s c0) as (seen' & c' & ->)
  end.
  destruct seen' as [|k seen']; [done|].
  by rewrite execute_accepted by apply Hacc.
Qed.

End Properties.

(** ** The upsert loop on the option table *)

Lemma upsert_rows_preserves (id : option Z) (r old : option_row)
    (m : gmap Z option_row) (k : Z) :
  m !! k = Some old →
  ∃ r', upsert_rows id r m !! k = Some r' ∧ or_question_id r' = or_question_id old.
Proof.
  intros Hk. unfold upsert_rows. destruct id as [k0|].
  - destruct (decide (k0 = k)) as [->|Hne].
    + rewrite Hk, lookup_insert_eq. by eexists.
    + destruct (m !! k0); rewrite lookup_insert_ne by done; by exists old.
  - rewrite lookup_insert_ne; [by exists old|].
    intros E. rewrite <- E, new_rowid_fresh in Hk. done.
Qed.

(** An option without an id is stored as sent, under the new key. *)
Lemma upsert_rows_new (r : option_row) (m : gmap Z option_row) :
  m !! new_rowid m = None ∧ upsert_rows None r m !! new_rowid m = Some r.
Proof. split; [apply new_rowid_fresh | apply lookup_insert_eq]. Qed.

Lemma upsert_rows_absent (id : option Z) (r : option_row)
    (m : gmap Z option_row) (k : Z) :
  upsert_rows id r m !! k = None → m !! k = None.
Proof.
  intros H. destruct (m !! k) as [old|] eqn:E; [|done].
  destruct (upsert_rows_preserves id r old m k E) as (r' & Hr' & _). congruence.
Qed.

Lemma upsert_rows_kept (qid : Z) (o : OptionIn) (m : gmap Z option_row) :
  ∃ r, upsert_rows (opt_id o) (option_params qid o) m
         !! default (new_rowid m) (opt_id o) = Some r ∧
       (opt_id o = None → or_question_id r = qid).
Proof.
  unfold upsert_rows. destruct (opt_id o) as [k|]; simpl.
  - destruct (m !! k); rewrite lookup_insert_eq; by eexists.
  - rewrite lookup_insert_eq. by eexists.
Qed.

Lemma upsert_loop_preserves (qid : Z) (os : list OptionIn) :
  ∀ (st : gmap Z option_row * list Z) (k : Z) (old : option_row),
  st.1 !! k = Some old →
  ∃ r', (upsert_loop qid os st).1 !! k = Some r' ∧
        or_question_id r' = or_question_id old.
Proof.
  induction os as [|o os IH]; intros st k old Hk; simpl; [by exists old|].
  destruct (upsert_rows_preserves (opt_id o) (option_params qid o) old st.1 k Hk)
    as (r1 & Hr1 & Hq1).
  destruct (IH (upsert_step qid st o) k r1 Hr1) as (r' & Hr' & Hq').
  exists r'. split; [done | congruence].
Qed.

Lemma upsert_loop_absent (qid : Z) (os : list OptionIn)
    (st : gmap Z option_row * list Z) (k : Z) :
  (upsert_loop qid os st).1 !! k = None → st.1 !! k = None.
Proof.
  intros H. destruct (st.1 !! k) as [old|] eqn:E; [|done].
  destruct (upsert_loop_preserves qid os st k old E) as (r' & Hr' & _). congruence.
Qed.

(** [Number] is exact up to 2^53. *)
Lemma Number_exact (n : Z) : - two53 ≤ n ≤ two53 → Number n = n.
Proof.
  intros Hn. unfold Number.
  destruct (Z.ltb_spec (Z.abs n) two53) as [Hlt|Hge]; [done|].
  assert (n = two53 ∨ n = - two53) as [-> | ->] by lia; vm_compute; reflexivity.
Qed.

Lemma new_rowid_cases {A : Type} (m : gmap Z A) :
  new_rowid m = 1 ∨ ∃ M, is_Some (m !! M) ∧ new_rowid m = M + 1.
Proof.
  unfold new_rowid. destruct (max_rowid m) as [M|] eqn:E; [|by left].
  right. exists M. apply max_rowid_Some in E as [HM _]. by split.
Qed.

Lemma upsert_rows_keys (id : option Z) (r : option_row) (m : gmap Z option_row) (k : Z) :
  is_Some (upsert_rows id r m !! k) →
  is_Some (m !! k) ∨ id = Some k ∨ (id = None ∧ k = new_rowid m).
Proof.
  unfold upsert_rows. destruct id as [k0|].
  - destruct (decide (k0 = k)) as [->|Hne]; [by right; left|].
    destruct (m !! k0); rewrite lookup_insert_ne by done; by left.
  - destruct (decide (new_rowid m = k)) as [<-|Hne]; [by right; right|].
    rewrite lookup_insert_ne by done. by left.
Qed.

(** With exact ids, the id the store generates for an option without id is
    a double, and the ids stay exact for the rest of the payload. *)
Lemma exact_ids_new_rowid (m : gmap Z option_row) (o : OptionIn) (os : list OptionIn) :
  exact_ids m (o :: os) →
  - two53 ≤ new_rowid m ≤ two53 - Z.of_nat (length os).
Proof.
  intros (Hn & Hkeys & _). simpl length in *.
  destruct (new_rowid_cases m) as [-> | (M & HM & ->)].
  - unfold two53 in *. lia.
  - specialize (Hkeys M HM). lia.
Qed.

Lemma exact_ids_step (qid : Z) (m : gmap Z option_row) (o : OptionIn)
    (os : list OptionIn) :
  exact_ids m (o :: os) →
  exact_ids (upsert_rows (opt_id o) (option_params qid o) m) os.
Proof.
  intros Hexact. pose proof (exact_ids_new_rowid m o os Hexact) as Hnew.
  destruct Hexact as (Hn & Hkeys & Hids). simpl length in *.
  split; [lia|]. split.
  - intros k Hk. apply upsert_rows_keys in Hk as [Hk|[Hk|[_ ->]]].
    + specialize (Hkeys k Hk). lia.
    + assert (o ∈ o :: os) as Hin by (apply elem_of_cons; by left).
      specialize (Hids o k Hin Hk). lia.
    + done.
  - intros o' k Hin Hk.
    assert (o' ∈ o :: os) as Hin' by (apply elem_of_cons; by right).
    specialize (Hids o' k Hin' Hk). lia.
Qed.

Lemma exact_idsb_sound (m : gmap Z option_row) (os : list OptionIn) :
  exact_idsb m os = true → exact_ids m os.
Proof.
  unfold exact_idsb, exact_ids. intros H.
  apply andb_true_iff in H as [H Hos]. apply andb_true_iff in H as [Hn Hm].
  rewrite forallb_forall in Hm, Hos. split; [lia|]. split.
  - intros k Hk. apply elem_of_keys, list_elem_of_In, Hm in Hk.
    unfold in_exact_range in Hk. lia.
  - intros o k Hin Hk. apply list_elem_of_In, Hos in Hin. rewrite Hk in Hin.
    simpl in Hin. unfold in_exact_range in Hin. lia.
Qed.

(** What the loop pushes onto [seenIds], whatever the ids: one id per
    incoming option, in order, the option's own id when it has one. *)
Lemma upsert_loop_pushed (qid : Z) (os : list OptionIn) :
  ∀ st : gmap Z option_row * list Z,
  ∃ ids : list Z,
    (upsert_loop qid os st).2 = st.2 ++ ids ∧
    length ids = length os ∧
    ∀ (i : nat) (o : OptionIn) (k : Z),
      os !! i = Some o → opt_id o = Some k → ids !! i = Some k.
Proof.
  induction os as [|o os IH]; intros st.
  - exists []. simpl. rewrite app_nil_r. split; [done|]. split; [done|].
    intros i o k Hi. by rewrite lookup_nil in Hi.
  - destruct (IH (upsert_step qid st o)) as (ids & Hseen & Hlen & Hall).
    exists (default (Number (new_rowid st.1)) (opt_id o) :: ids).
    split; [|split].
    + change (upsert_loop qid (o :: os) st)
        with (upsert_loop qid os (upsert_step qid st o)).
      rewrite Hseen. simpl. by rewrite <- app_assoc.
    + simpl. by rewrite Hlen.
    + intros [|i] o' k Hi Hk; simpl in Hi.
      * injection Hi as <-. by rewrite Hk.
      * by apply (Hall i o').
Qed.

(** What the loop pushes onto [seenIds] when the ids are exact: the
    option's own id when it has one, and otherwise the key of a row that
    did not exist before and now belongs to the question. *)
Lemma upsert_loop_seen (qid : Z) (os : list OptionIn) :
  ∀ st : gmap Z option_row * list Z,
  exact_ids st.1 os →
  ∃ ids : list Z,
    (upsert_loop qid os st).2 = st.2 ++ ids ∧
    length ids = length os ∧
    ∀ (i : nat) (o : OptionIn), os !! i = Some o →
      ∃ (k : Z) (r : option_row),
        ids !! i = Some k ∧
        (∀ k', opt_id o = Some k' → k = k') ∧
        (upsert_loop qid os st).1 !! k = Some r ∧
        (opt_id o = None → st.1 !! k = None ∧ or_question_id r = qid).
Proof.
  induction os as [|o os IH]; intros st Hexact.
  - exists []. simpl. rewrite app_nil_r. split; [done|]. split; [done|].
    intros i o Hi. by rewrite lookup_nil in Hi.
  - pose proof (exact_ids_new_rowid st.1 o os Hexact) as Hnew.
    assert (Number (new_rowid st.1) = new_rowid st.1) as Hnum.
    { apply Number_exact. unfold two53 in *. lia. }
    destruct (IH (upsert_step qid st o)) as (ids & Hseen & Hlen & Hall).
    { by apply exact_ids_step. }
    exists (default (new_rowid st.1) (opt_id o) :: ids).
    split; [|split].
    + change (upsert_loop qid (o :: os) st)
        with (upsert_loop qid os (upsert_step qid st o)).
      rewrite Hseen. simpl. rewrite Hnum. by rewrite <- app_assoc.
    + simpl. by rewrite Hlen.
    + change (upsert_loop qid (o :: os) st)
        with (upsert_loop qid os (upsert_step qid st o)).
      intros [|i] o' Hi; simpl in Hi.
      * injection Hi as <-.
        destruct (upsert_rows_kept qid o st.1) as (r0 & Hr0 & Hq0).
        destruct (upsert_loop_preserves qid os (upsert_step qid st o) _ r0 Hr0)
          as (r' & Hr' & Hq').
        exists (default (new_rowid st.1) (opt_id o)), r'.
        split; [done|]. split; [by intros k' ->|]. split; [done|].
        intros Hnone. rewrite Hnone. simpl. split; [apply new_rowid_fresh|].
        rewrite Hq'. by apply Hq0.
      * destruct (Hall i o' Hi) as (k & r & Hk & Hid & Hr & Hnew').
        exists k, r. split; [done|]. split; [done|]. split; [done|].
        intros Hnone. destruct (Hnew' Hnone) as [Hfresh Hq]. split; [|done].
        by apply upsert_rows_absent in Hfresh.
Qed.

Lemma lookup_delete_not_in (qid : Z) (ids : list Z) (m : gmap Z option_row)
    (k : Z) (r : option_row) :
  delete_not_in qid ids m !! k = Some r ↔
  m !! k = Some r ∧ ¬ (or_question_id r = qid ∧ k ∉ ids).
Proof. unfold delete_not_in. by rewrite map_lookup_filter_Some. Qed.

(** C1, where it fails.  Question 1 owns one option, stored under the id
    2^53 that an earlier PUT chose for it.  A PUT of question 1 whose only
    option has no id is answered 200 and sends the upsert and the DELETE;
    the store inserts the option under 2^53 + 1, but [Number] rounds that
    id to 2^53, which is what the DELETE keeps: the row just inserted is
    deleted and the row that was not resent survives, so the option table
    is the one before the PUT. *)
Theorem PUT_new_option_lost_above_2_53 :
  question_options (db big_client) !! two53
    = Some {| or_question_id := 1; or_label := "old";
              or_next_question_id := Some (-1); or_price_modifier := Some 5 |} ∧
  new_rowid (question_options (db big_client)) = two53 + 1 ∧
  (PUT accept_all add_payload big_client).1 = {| status := 200; body := OkBody |} ∧
  executed (PUT accept_all add_payload big_client).2
    = executed big_client
      ++ [UpdateQuestion (question_params add_payload) 1;
          UpsertOption None {| or_question_id := 1; or_label := "D";
                               or_next_question_id := None;
                               or_price_modifier := Some 0 |};
          DeleteOptionsNotIn 1 [two53]] ∧
  question_options (db (PUT accept_all add_payload big_client).2) !! (two53 + 1) = None ∧
  question_options (db (PUT accept_all add_payload big_client).2) !! two53
    = Some {| or_question_id := 1; or_label := "old";
              or_next_question_id := Some (-1); or_price_modifier := Some 5 |} ∧
  question_options (db (PUT accept_all add_payload big_client).2)
    = question_options (db big_client).
Proof. repeat split; vm_compute; reflexivity. Qed.


(** ** Validation and acknowledgement *)

Section Validation.

Variable rejects : stmt → tables → option string.

(** C8: a PUT whose body has no id is answered 400 with the error
    "id is required for PUT", and nothing is sent to the store: the client,
    its tables and the list of executed statements, is the one before. *)
Theorem PUT_requires_id (b : QuestionIn) (c : client) :
  q_id b = None →
  PUT rejects b c = (json_response 400 (ErrorBody "id is required for PUT"), c).
Proof. intros Hid. unfold PUT. by rewrite Hid. Qed.

(** C3, as the code has it: when some option label is empty or made of
    white space only, POST is answered 400 with "Option labels cannot be
    empty"; PUT is answered 400 with that error when the body has an id and
    with "id is required for PUT" when it has none; neither sends anything
    to the store. *)
Theorem blank_label_rejected (b : QuestionIn) (c : client)
    (os : list OptionIn) (o : OptionIn) :
  q_options b = Some os → o ∈ os → whitespace_only (opt_label o) →
  POST rejects b c
    = (json_response 400 (ErrorBody "Option labels cannot be empty"), c) ∧
  PUT rejects b c
    = (json_response 400
         (ErrorBody (match q_id b with
                     | Some _ => "Option labels cannot be empty"
                     | None => "id is required for PUT"
                     end)), c).
Proof.
  intros Hos Hin Hw.
  assert (some_blank_label b = true) as Hb
    by (apply some_blank_label_true; eauto).
  unfold POST, PUT. rewrite Hb. by destruct (q_id b).
Qed.

(** C2: a PUT whose option array is empty leaves the option table as it
    was, whatever the outcome, and none of the statements it sends is the
    DELETE of step 3. *)
Theorem PUT_empty_options_keeps_rows (b : QuestionIn) (c c' : client) (r : NextResponse) :
  q_options b = Some [] →
  PUT rejects b c = (r, c') →
  question_options (db c') = question_options (db c) ∧
  ∃ sent : list stmt,
    executed c' = executed c ++ sent ∧
    ∀ qid ids, DeleteOptionsNotIn qid ids ∉ sent.
Proof.
  intros Hos. unfold PUT, some_blank_label. rewrite Hos. simpl.
  destruct (q_id b) as [qid|].
  - unfold try_catch, bind, execute. simpl.
    destruct (rejects (UpdateQuestion (question_params b) qid) (db c)); simpl.
    + intros [= <- <-]. split; [done|]. exists []. rewrite app_nil_r.
      split; [done|]. intros ? ?. apply not_elem_of_nil.
    + intros [= <- <-]. simpl. split; [done|].
      exists [UpdateQuestion (question_params b) qid]. split; [done|].
      intros ? ? Hin. by apply list_elem_of_singleton in Hin.
  - intros [= <- <-]. split; [done|]. exists []. rewrite app_nil_r.
    split; [done|]. intros ? ?. apply not_elem_of_nil.
Qed.


(** C10: neither PUT nor DELETE looks for the question row.  On a store
    that accepts the statements, a PUT with an id and no blank label, and a
    DELETE, are answered 200 [{ok: true}] when no question has that id, the
    answer they give on any other state of the store. *)
Theorem PUT_DELETE_missing_question_ok (b : QuestionIn) (c : client) (id : Z) :
  (∀ s t, rejects s t = None) →
  questions (db c) !! id = None →
  q_id b = Some id →
  (∀ os o, q_options b = Some os → o ∈ os → ¬ whitespace_only (opt_label o)) →
  (PUT rejects b c).1 = {| status := 200; body := OkBody |} ∧
  (DELETE rejects (Some id) c).1 = {| status := 200; body := OkBody |} ∧
  ∀ c2 : client,
    (PUT rejects b c2).1 = (PUT rejects b c).1 ∧
    (DELETE rejects (Some id) c2).1 = (DELETE rejects (Some id) c).1.
Proof.
  intros Hacc _ Hid Hvalid.
  assert (∀ c0, (PUT rejects b c0).1 = json_response 200 OkBody) as Hput.
  { intros c0. apply (PUT_accepted rejects b c0 id Hacc Hid).
    by apply some_blank_label_false. }
  assert (∀ c0, (DELETE rejects (Some id) c0).1 = json_response 200 OkBody) as Hdel.
  { intros c0. unfold DELETE, try_catch, bind.
    by rewrite execute_accepted by apply Hacc. }
  split; [apply Hput|]. split; [apply Hdel|].
  intros c2. by rewrite !Hput, !Hdel.
Qed.

End Validation.

(** ** Idempotence of the update *)

(** The question that owns the row [k] after an upsert of [k]: the owner of
    the stored row, or the question being updated when there is none. *)
Lemma option_params_conflict (qid : Z) (o : OptionIn) (old : option_row) :
  on_conflict_update old (option_params qid o)
  = option_params (or_question_id old) o.
Proof. done. Qed.

Lemma last_with_id_elem (k : Z) (os : list OptionIn) (o : OptionIn) :
  last_with_id k os = Some o → o ∈ os ∧ opt_id o = Some k.
Proof.
  induction os as [|o' os IH]; simpl; [done|].
  destruct (last_with_id k os) as [o1|].
  - intros [= <-]. destruct IH as [Hin Hid]; [done|].
    split; [|done]. apply elem_of_cons. by right.
  - destruct (decide (opt_id o' = Some k)) as [Hid|]; [|done].
    intros [= <-]. split; [|done]. apply elem_of_cons. by left.
Qed.

Lemma upsert_loop_ids (qid : Z) (os : list OptionIn) :
  Forall (λ o, is_Some (opt_id o)) os →
  ∀ st, (upsert_loop qid os st).2 = st.2 ++ omap opt_id os.
Proof.
  induction 1 as [|o os [k Hk] _ IH]; intros st; simpl.
  - by rewrite app_nil_r.
  - rewrite IH. simpl. rewrite Hk. simpl. by rewrite <- app_assoc.
Qed.

Lemma upsert_loop_lookup (qid : Z) (os : list OptionIn) :
  Forall (λ o, is_Some (opt_id o)) os →
  ∀ (st : gmap Z option_row * list Z) (k : Z),
  (upsert_loop qid os st).1 !! k =
    match last_with_id k os with
    | Some o => Some (option_params (from_option or_question_id qid (st.1 !! k)) o)
    | None => st.1 !! k
    end.
Proof.
  induction 1 as [|o os [k0 Hk0] _ IH]; intros st k; simpl; [done|].
  rewrite IH. simpl. rewrite Hk0. unfold upsert_rows.
  destruct (decide (k0 = k)) as [->|Hne].
  - rewrite decide_True by done.
    destruct (st.1 !! k) as [old|] eqn:E; rewrite lookup_insert_eq; simpl;
      by destruct (last_with_id k os).
  - rewrite decide_False by congruence.
    assert (∀ r, <[k0 := r]> st.1 !! k = st.1 !! k) as Hins
      by (intros; by rewrite lookup_insert_ne).
    destruct (st.1 !! k0); rewrite Hins; by destruct (last_with_id k os).
Qed.

(** A table that already holds every option of the payload, as the payload
    has it, is left as it is by the upsert loop. *)
Lemma upsert_loop_stable (qid : Z) (os : list OptionIn) (m : gmap Z option_row)
    (seen : list Z) :
  Forall (λ o, is_Some (opt_id o)) os →
  (∀ k o, last_with_id k os = Some o → ∃ q, m !! k = Some (option_params q o)) →
  (upsert_loop qid os (m, seen)).1 = m.
Proof.
  intros Hids Hheld. apply map_eq. intros k.
  rewrite upsert_loop_lookup by done. simpl.
  destruct (last_with_id k os) as [o|] eqn:E; [|done].
  destruct (Hheld k o E) as [q Hq]. by rewrite Hq.
Qed.

Lemma delete_not_in_twice (qid : Z) (ids : list Z) (m : gmap Z option_row) :
  delete_not_in qid ids (delete_not_in qid ids m) = delete_not_in qid ids m.
Proof.
  apply map_eq. intros k. apply option_eq. intros r.
  rewrite !lookup_delete_not_in. tauto.
Qed.

Lemma reconcile_twice (qid : Z) (os : list OptionIn) (m : gmap Z option_row) :
  Forall (λ o, is_Some (opt_id o)) os →
  reconcile qid os (reconcile qid os m) = reconcile qid os m.
Proof.
  intros Hids. unfold reconcile, delete_removed.
  rewrite !upsert_loop_ids by done. simpl.
  destruct (omap opt_id os) as [|k0 ids] eqn:Eids.
  - destruct Hids as [|o os [k Hk] _]; [done|]. simpl in Eids. by rewrite Hk in Eids.
  - rewrite <- Eids. set (L := (upsert_loop qid os (m, [])).1).
    rewrite upsert_loop_stable; [apply delete_not_in_twice | done |].
    intros k o Hlast. exists (from_option or_question_id qid (m !! k)).
    apply lookup_delete_not_in. split.
    + unfold L. rewrite upsert_loop_lookup by done. by rewrite Hlast.
    + intros [_ Hnot]. apply Hnot. apply last_with_id_elem in Hlast as [Hin Hid].
      apply list_elem_of_omap. by exists o.
Qed.

Section Idempotence.

Variable rejects : stmt → tables → option string.

(** C5: when every option of the payload carries an id, a second PUT of the
    same payload, both running to their end, leaves the question and option
    tables exactly as the first one left them. *)
Theorem PUT_idempotent (b : QuestionIn) (c c1 c2 : client) (r1 r2 : NextResponse) :
  (∀ os o, q_options b = Some os → o ∈ os → is_Some (opt_id o)) →
  PUT rejects b c = (r1, c1) → status r1 = 200%nat →
  PUT rejects b c1 = (r2, c2) → status r2 = 200%nat →
  db c2 = db c1.
Proof.
  intros Hids Hput1 Hst1 Hput2 Hst2.
  destruct (PUT_200 rejects b c c1 r1 Hput1 Hst1)
    as (qid & seen1 & Hid & _ & _ & Hq1 & _ & Ho1 & _).
  destruct (PUT_200 rejects b c1 c2 r2 Hput2 Hst2)
    as (qid' & seen2 & Hid' & _ & _ & Hq2 & _ & Ho2 & _).
  assert (qid' = qid) as -> by congruence.
  assert (Forall (λ o, is_Some (opt_id o)) (default [] (q_options b))) as Hall.
  { destruct (q_options b) as [os|] eqn:E; simpl; [|done].
    apply Forall_forall. intros o Hin. by apply (Hids os). }
  assert (questions (db c2) = questions (db c1)) as Hq.
  { rewrite Hq2, Hq1. apply map_eq. intros k.
    destruct (decide (qid = k)) as [->|Hne].
    - rewrite !lookup_alter_eq. destruct (questions (db c) !! k); reflexivity.
    - by rewrite !lookup_alter_ne. }
  assert (question_options (db c2) = question_options (db c1)) as Ho.
  { rewrite Ho2, Ho1. by apply reconcile_twice. }
  clear - Hq Ho. destruct (db c2), (db c1). simpl in *. congruence.
Qed.

End Idempotence.

(** ** Create *)

Lemma insert_loop_old (qId : Z) (os : list OptionIn) :
  ∀ (m : gmap Z option_row) (k : Z),
  k < new_rowid m → insert_loop qId os m !! k = m !! k.
Proof.
  induction os as [|o os IH]; intros m k Hk; simpl; [done|].
  rewrite IH by (rewrite new_rowid_insert; lia).
  apply lookup_insert_ne. lia.
Qed.

Lemma insert_loop_new (qId : Z) (os : list OptionIn) :
  ∀ (m : gmap Z option_row) (i : nat) (o : OptionIn),
  os !! i = Some o →
  insert_loop qId os m !! (new_rowid m + Z.of_nat i) = Some (option_params qId o).
Proof.
  induction os as [|o' os IH]; intros m i o Hi; [by rewrite lookup_nil in Hi|].
  change (insert_loop qId (o' :: os) m)
    with (insert_loop qId os (<[new_rowid m := option_params qId o']> m)).
  destruct i as [|i]; simpl in Hi.
  - injection Hi as ->. rewrite Z.add_0_r.
    rewrite insert_loop_old by (rewrite new_rowid_insert; lia).
    apply lookup_insert_eq.
  - replace (new_rowid m + Z.of_nat (S i))
      with (new_rowid (<[new_rowid m := option_params qId o']> m) + Z.of_nat i)
      by (rewrite new_rowid_insert; lia).
    by apply IH.
Qed.

Section Create.

Variable rejects : stmt → tables → option string.

(** The option loop of POST, whatever its outcome: it executed the inserts
    of the first [n] options, in order, and of all of them when it did not
    throw. *)
Lemma insert_for_run (qId : Z) (os : list OptionIn) :
  ∀ (c c' : client) (res : string + unit),
  for_of os (insert_option rejects qId) c = (res, c') →
  ∃ n : nat,
    (n ≤ length os)%nat ∧
    executed c' = executed c ++ take n (insert_stmt qId <$> os) ∧
    questions (db c') = questions (db c) ∧
    question_options (db c')
      = insert_loop qId (take n os) (question_options (db c)) ∧
    (∀ u, res = inr u → n = length os).
Proof.
  induction os as [|o os IH]; intros c c' res H; simpl in H.
  - unfold ret in H. injection H as <- <-. exists 0%nat. simpl.
    rewrite app_nil_r. by repeat split.
  - unfold bind at 1, insert_option at 1, bind at 1, execute at 1 in H.
    destruct (rejects (InsertOption (option_params qId o)) (db c)) as [e|] eqn:R.
    + injection H as <- <-. exists 0%nat. simpl. rewrite app_nil_r.
      repeat split; [lia | done].
    + simpl in H. apply IH in H as (n & Hn & Hlog & Hq & Ho & Hall). simpl in *.
      exists (S n). simpl. repeat split; [lia | | done | done | ].
      * rewrite Hlog. by rewrite <- app_assoc.
      * intros u Hu. by rewrite (Hall u Hu).
Qed.

Lemma POST_unfold (b : QuestionIn) :
  POST rejects b =
    if some_blank_label b then
      respond (json_response 400 (ErrorBody "Option labels cannot be empty"))
    else
      try_catch
        (bind (execute rejects (InsertQuestion (question_params b))) (λ insertQ,
         bind (for_of (default [] (q_options b))
                 (insert_option rejects (lastInsertRowid insertQ))) (λ _,
         bind (execute rejects (SelectQuestion (lastInsertRowid insertQ))) (λ created,
         ret (json_response 201 (RowBody (head (rows created))))))))
        server_error.
Proof. unfold POST. by destruct (q_options b) as [[|o os]|]. Qed.

(** A POST, whatever its outcome, executed a prefix of its statements: the
    insert of the question, the inserts of the options, the select of the
    created row.  Answered 201, it executed all of them. *)
Lemma POST_run (b : QuestionIn) (c c' : client) (r : NextResponse) :
  POST rejects b c = (r, c') →
  let qId := new_rowid (questions (db c)) in
  let steps := InsertQuestion (question_params b)
               :: (insert_stmt qId <$> default [] (q_options b))
               ++ [SelectQuestion qId] in
  (∃ n : nat, executed c' = executed c ++ take n steps) ∧
  (status r = 201%nat →
     executed c' = executed c ++ steps ∧
     questions (db c') = <[qId := question_params b]> (questions (db c)) ∧
     question_options (db c')
       = insert_loop qId (default [] (q_options b)) (question_options (db c))).
Proof.
  intros H qId steps. rewrite POST_unfold in H.
  destruct (some_blank_label b).
  { injection H as <- <-. split; [|done]. exists 0%nat. simpl. by rewrite app_nil_r. }
  unfold try_catch, bind at 1, execute at 1 in H.
  destruct (rejects (InsertQuestion (question_params b)) (db c)) as [e|] eqn:R.
  { injection H as <- <-. split; [|done]. exists 0%nat. simpl. by rewrite app_nil_r. }
  simpl in H. fold qId in H. unfold bind at 1 in H.
  match type of H with
  | context [for_of ?os ?f ?c0] => destruct (for_of os f c0) as [[e|[]] c2] eqn:Hloop
  end.
  - injection H as <- <-.
    apply insert_for_run in Hloop as (n & Hn & Hlog & _). simpl in Hlog.
    split; [|done]. exists (S n). unfold steps. simpl.
    rewrite take_app_le by (by rewrite length_fmap).
    rewrite Hlog. by rewrite <- app_assoc.
  - apply insert_for_run in Hloop as (n & Hn & Hlog & Hq & Ho & Hall).
    simpl in Hlog, Hq, Ho. rewrite (Hall tt eq_refl) in Hlog, Ho.
    rewrite take_ge in Hlog by (by rewrite length_fmap).
    rewrite take_ge in Ho by done.
    unfold bind, execute in H.
    destruct (rejects (SelectQuestion qId) (db c2)) as [e|] eqn:R2.
    + injection H as <- <-. split; [|done].
      exists (S (length (default [] (q_options b)))). unfold steps. simpl.
      rewrite take_app_le by (by rewrite length_fmap).
      rewrite take_ge by (by rewrite length_fmap).
      rewrite Hlog. by rewrite <- app_assoc.
    + simpl in H. unfold ret in H. injection H as <- <-. simpl.
      assert (executed c2 ++ [SelectQuestion qId] = executed c ++ steps) as Hsteps.
      { rewrite Hlog. unfold steps. by rewrite <- !app_assoc. }
      split.
      * exists (length steps). by rewrite firstn_all.
      * intros _. rewrite Hq, Ho. by destruct (db c2).
Qed.

(** C7: a POST that runs to its end inserts the question row under a new
    id, with [subtext] and [hint] defaulting to the empty string and
    [validationKey], [input] and [next_question_id] to NULL; then one row
    per option, under new ids, with that question id as parent and
    [price_modifier] defaulting to 0; stored option rows are left alone.
    Whatever the outcome, the statements a POST executed are a prefix of:
    the insert of the question, the inserts of the options in order, the
    select of the created row; so no option row is ever inserted before the
    question row. *)
Theorem POST_creates_question_then_options (b : QuestionIn) (c c' : client)
    (r : NextResponse) :
  POST rejects b c = (r, c') →
  let qId := new_rowid (questions (db c)) in
  let os := default [] (q_options b) in
  let question :=
    {| qr_field := q_field b;
       qr_text := q_text b;
       qr_subtext := match q_subtext b with Some s => s | None => EmptyString end;
       qr_type := q_type b;
       qr_hint := match q_hint b with Some s => s | None => EmptyString end;
       qr_validation_key := q_validationKey b;
       qr_input_config :=
         match q_input b with Some members => Some (JObj members) | None => None end;
       qr_next_question_id := q_next_question_id b |} in
  let option_of (o : OptionIn) :=
    {| or_question_id := qId;
       or_label := opt_label o;
       or_next_question_id := opt_next_question_id o;
       or_price_modifier :=
         Some (match opt_price_modifier o with Some p => p | None => 0 end) |} in
  let steps :=
    InsertQuestion question :: (InsertOption ∘ option_of <$> os)
    ++ [SelectQuestion qId] in
  (∃ n : nat, executed c' = executed c ++ take n steps) ∧
  (status r = 201%nat →
     executed c' = executed c ++ steps ∧
     questions (db c) !! qId = None ∧
     questions (db c') = <[qId := question]> (questions (db c)) ∧
     (∀ i o, os !! i = Some o →
        question_options (db c) !! (new_rowid (question_options (db c)) + Z.of_nat i) = None ∧
        question_options (db c') !! (new_rowid (question_options (db c)) + Z.of_nat i)
          = Some (option_of o)) ∧
     (∀ k old, question_options (db c) !! k = Some old →
        question_options (db c') !! k = Some old)).
Proof.
  intros H qId os question option_of steps.
  assert (question = question_params b) as Hquestion.
  { unfold question, question_params.
    by destruct (q_subtext b), (q_hint b), (q_input b). }
  assert (∀ o, option_of o = option_params qId o) as Hoption.
  { intros o. unfold option_of, option_params. by destruct (opt_price_modifier o). }
  assert (steps = InsertQuestion (question_params b)
                    :: (insert_stmt qId <$> os) ++ [SelectQuestion qId]) as Hsteps.
  { unfold steps. by rewrite Hquestion. }
  destruct (POST_run b c c' r H) as [Hprefix Hfull].
  fold qId os in Hprefix, Hfull. rewrite <- Hsteps in Hprefix, Hfull.
  split; [done|]. intros Hst.
  destruct (Hfull Hst) as (Hlog & Hq & Ho).
  split; [done|]. split; [apply new_rowid_fresh|].
  split; [by rewrite Hquestion|]. split.
  - intros i o Hi. split.
    + destruct (question_options (db c) !! _) as [old|] eqn:E; [|done].
      assert (new_rowid (question_options (db c)) + Z.of_nat i
              < new_rowid (question_options (db c)))
        by (apply new_rowid_above; eauto).
      lia.
    + rewrite Ho, Hoption. by apply insert_loop_new.
  - intros k old Hold. rewrite Ho, insert_loop_old; [done|].
    apply new_rowid_above. eauto.
Qed.

End Create.

(** ** Listing *)

Lemma left_join_no_options (k : Z) (os : gmap Z option_row) :
  (∀ j r, os !! j = Some r → or_question_id r ≠ k) →
  left_join_options k os = [None].
Proof.
  intros Hnone. unfold left_join_options.
  destruct (filter _ (map_to_list os)) as [|[j r] l] eqn:E; [done|].
  assert ((j, r) ∈ filter (λ kr : Z * option_row, or_question_id kr.2 = k)
                     (map_to_list os)) as Hin
    by (rewrite E; apply elem_of_cons; by left).
  apply list_elem_of_filter in Hin as [Hq Hin].
  apply elem_of_map_to_list in Hin. by destruct (Hnone j r Hin).
Qed.

Section Listing.

Variable rejects : stmt → tables → option string.

(** The listing of a question that has no option row: its [options] array
    holds one element, the object of nulls built from the unmatched row of
    the LEFT JOIN; it is not the empty array. *)
Lemma GET_question_without_options (c : client) (k : Z) (q : question_row) :
  rejects SelectQuestionsWithOptions (db c) = None →
  questions (db c) !! k = Some q →
  (∀ j r, question_options (db c) !! j = Some r → or_question_id r ≠ k) →
  ∃ (listed : list QuestionOut) (out : QuestionOut),
    (GET rejects c).1 = json_response 200 (QuestionsBody listed) ∧
    out ∈ listed ∧
    out_id out = k ∧
    out_options out = JArr [null_option] ∧
    out_options out ≠ JArr [].
Proof.
  intros Hacc Hq Hnone. unfold GET, try_catch, bind.
  rewrite execute_accepted by done. simpl.
  eexists _, (question_of_row (select_row (question_options (db c)) (k, q))).
  split; [done|]. split.
  - apply list_elem_of_fmap_2, list_elem_of_fmap_2. by apply elem_of_map_to_list.
  - simpl. rewrite left_join_no_options by done. by repeat split.
Qed.

End Listing.

(** C4, on the example of the specification: after the creation of the
    question [age], which has no options, the listing shows it with an
    [options] array of one element, the object whose four members are
    null, and not with the empty array. *)
Theorem GET_after_create_lists_placeholder :
  (GET accept_all (POST accept_all age_question empty_client).2).1
  = {| status := 200;
       body := QuestionsBody
         [ {| out_id := 1;
              out_field := "age";
              out_text := "Your age?";
              out_subtext := EmptyString;
              out_type := "number";
              out_hint := EmptyString;
              out_validationKey := None;
              out_input := None;
              out_next_question_id := None;
              out_options :=
                JArr [JObj [("id"%string, JNull);
                            ("label"%string, JNull);
                            ("next_question_id"%string, JNull);
                            ("price_modifier"%string, JNull)]] |} ] |}
  ∧ question_options (db (POST accept_all age_question empty_client).2) = ∅.
Proof. split; vm_compute; reflexivity. Qed.

(** ** Ownership of option rows *)

(** C9: the upsert of PUT does not look at the owner of the row it updates.
    In a store where the option 3 belongs to question 2, a PUT of question 1
    whose payload names the option 3 is answered 200 and overwrites the
    label, next question and price modifier of that row, which still
    belongs to question 2. *)
Theorem PUT_overwrites_foreign_option :
  ∃ (b : QuestionIn) (c : client),
    q_id b = Some 1 ∧
    question_options (db c) !! 3
      = Some {| or_question_id := 2; or_label := "C";
                or_next_question_id := None; or_price_modifier := Some 0 |} ∧
    (PUT accept_all b c).1 = {| status := 200; body := OkBody |} ∧
    question_options (db (PUT accept_all b c).2) !! 3
      = Some {| or_question_id := 2; or_label := "taken";
                or_next_question_id := Some (-1); or_price_modifier := Some 5 |}.
Proof.
  exists foreign_payload, sample_client.
  repeat split; vm_compute; reflexivity.
Qed.

(** ** The claim on blank labels, as written *)

(** C3 fails as written: a PUT without an id whose payload has a blank label
    is answered "id is required for PUT", not "Option labels cannot be
    empty". *)
Lemma blank_label_error_not_uniform :
  ¬ (∀ (rejects : stmt → tables → option string) (b : QuestionIn) (c : client)
       (os : list OptionIn) (o : OptionIn),
       q_options b = Some os → o ∈ os → whitespace_only (opt_label o) →
       POST rejects b c
         = (json_response 400 (ErrorBody "Option labels cannot be empty"), c) ∧
       PUT rejects b c
         = (json_response 400 (ErrorBody "Option labels cannot be empty"), c)).
Proof.
  intros H.
  destruct (H accept_all (blank_payload None) empty_client
              [new_option "A"; new_option "  "] (new_option "  ")) as [_ Hput].
  - reflexivity.
  - rewrite !elem_of_cons. tauto.
  - by vm_compute.
  - vm_compute in Hput. discriminate Hput.
Qed.

(** ** The theorems on the sample store *)

Lemma PUT_empty_options_keeps_rows_witness :
  (q_options no_options_payload = Some [] ∧
   PUT accept_all no_options_payload sample_client
     = ((PUT accept_all no_options_payload sample_client).1,
        (PUT accept_all no_options_payload sample_client).2)) ∧
  (question_options (db (PUT accept_all no_options_payload sample_client).2)
     = question_options (db sample_client) ∧
   ∃ sent : list stmt,
     executed (PUT accept_all no_options_payload sample_client).2
       = executed sample_client ++ sent ∧
     ∀ qid ids, DeleteOptionsNotIn qid ids ∉ sent).
Proof.
  assert (q_options no_options_payload = Some []) as H1 by reflexivity.
  assert (PUT accept_all no_options_payload sample_client
          = ((PUT accept_all no_options_payload sample_client).1,
             (PUT accept_all no_options_payload sample_client).2)) as H2
    by apply surjective_pairing.
  split; [by split|].
  exact (PUT_empty_options_keeps_rows accept_all no_options_payload sample_client _ _
           H1 H2).
Defined.

Lemma blank_label_rejected_witness :
  (q_options (blank_payload (Some 1)) = Some [new_option "A"; new_option "  "] ∧
   new_option "  " ∈ [new_option "A"; new_option "  "] ∧
   whitespace_only (opt_label (new_option "  "))) ∧
  (POST accept_all (blank_payload (Some 1)) sample_client
     = (json_response 400 (ErrorBody "Option labels cannot be empty"), sample_client) ∧
   PUT accept_all (blank_payload (Some 1)) sample_client
     = (json_response 400
          (ErrorBody (match q_id (blank_payload (Some 1)) with
                      | Some _ => "Option labels cannot be empty"
                      | None => "id is required for PUT"
                      end)), sample_client)).
Proof.
  assert (q_options (blank_payload (Some 1)) = Some [new_option "A"; new_option "  "])
    as H1 by reflexivity.
  assert (new_option "  " ∈ [new_option "A"; new_option "  "]) as H2
    by (rewrite !elem_of_cons; tauto).
  assert (whitespace_only (opt_label (new_option "  "))) as H3
    by (vm_compute; tauto).
  split; [by repeat split|].
  exact (blank_label_rejected accept_all (blank_payload (Some 1)) sample_client _ _
           H1 H2 H3).
Defined.

Lemma PUT_idempotent_witness :
  ((∀ os o, q_options resolved_payload = Some os → o ∈ os → is_Some (opt_id o)) ∧
   PUT accept_all resolved_payload sample_client
     = ((PUT accept_all resolved_payload sample_client).1,
        (PUT accept_all resolved_payload sample_client).2) ∧
   status (PUT accept_all resolved_payload sample_client).1 = 200%nat ∧
   PUT accept_all resolved_payload (PUT accept_all resolved_payload sample_client).2
     = ((PUT accept_all resolved_payload
           (PUT accept_all resolved_payload sample_client).2).1,
        (PUT accept_all resolved_payload
           (PUT accept_all resolved_payload sample_client).2).2) ∧
   status (PUT accept_all resolved_payload
             (PUT accept_all resolved_payload sample_client).2).1 = 200%nat) ∧
  db (PUT accept_all resolved_payload
        (PUT accept_all resolved_payload sample_client).2).2
  = db (PUT accept_all resolved_payload sample_client).2.
Proof.
  assert (∀ os o, q_options resolved_payload = Some os → o ∈ os → is_Some (opt_id o))
    as H1.
  { intros os o [= <-] Hin. rewrite !elem_of_cons in Hin.
    destruct Hin as [->|[->|Hin]]; [by eexists | by eexists |].
    by apply elem_of_nil in Hin. }
  assert (PUT accept_all resolved_payload sample_client
          = ((PUT accept_all resolved_payload sample_client).1,
             (PUT accept_all resolved_payload sample_client).2)) as H2
    by apply surjective_pairing.
  assert (status (PUT accept_all resolved_payload sample_client).1 = 200%nat) as H3
    by (vm_compute; reflexivity).
  assert (PUT accept_all resolved_payload (PUT accept_all resolved_payload sample_client).2
          = ((PUT accept_all resolved_payload
                (PUT accept_all resolved_payload sample_client).2).1,
             (PUT accept_all resolved_payload
                (PUT accept_all resolved_payload sample_client).2).2)) as H4
    by apply surjective_pairing.
  assert (status (PUT accept_all resolved_payload
                    (PUT accept_all resolved_payload sample_client).2).1 = 200%nat) as H5
    by (vm_compute; reflexivity).
  split; [by repeat split|].
  exact (PUT_idempotent accept_all resolved_payload sample_client _ _ _ _
           H1 H2 H3 H4 H5).
Defined.


Lemma POST_creates_question_then_options_witness :
  POST accept_all (colour_question None [new_option "A"; new_option "B"]) empty_client
    = ((POST accept_all (colour_question None [new_option "A"; new_option "B"])
          empty_client).1,
       (POST accept_all (colour_question None [new_option "A"; new_option "B"])
          empty_client).2) ∧
  status (POST accept_all (colour_question None [new_option "A"; new_option "B"])
            empty_client).1 = 201%nat ∧
  executed (POST accept_all (colour_question None [new_option "A"; new_option "B"])
              empty_client).2
    = [InsertQuestion (question_params (colour_question None []));
       InsertOption {| or_question_id := 1; or_label := "A";
                       or_next_question_id := None; or_price_modifier := Some 0 |};
       InsertOption {| or_question_id := 1; or_label := "B";
                       or_next_question_id := None; or_price_modifier := Some 0 |};
       SelectQuestion 1].
Proof.
  assert (POST accept_all (colour_question None [new_option "A"; new_option "B"])
            empty_client
          = ((POST accept_all (colour_question None [new_option "A"; new_option "B"])
                empty_client).1,
             (POST accept_all (colour_question None [new_option "A"; new_option "B"])
                empty_client).2)) as H1
    by apply surjective_pairing.
  assert (status (POST accept_all (colour_question None [new_option "A"; new_option "B"])
                    empty_client).1 = 201%nat) as H2
    by (vm_compute; reflexivity).
  split; [done|]. split; [done|].
  destruct (POST_creates_question_then_options accept_all
              (colour_question None [new_option "A"; new_option "B"]) empty_client _ _ H1)
    as [_ Hfull].
  destruct (Hfull H2) as [Hlog _].
  exact Hlog.
Defined.

Lemma PUT_requires_id_witness :
  q_id age_question = None ∧
  PUT accept_all age_question sample_client
    = (json_response 400 (ErrorBody "id is required for PUT"), sample_client).
Proof.
  assert (q_id age_question = None) as H1 by reflexivity.
  split; [done|].
  exact (PUT_requires_id accept_all age_question sample_client H1).
Defined.

Lemma PUT_DELETE_missing_question_ok_witness :
  ((∀ s t, accept_all s t = None) ∧
   questions (db sample_client) !! 7 = None ∧
   q_id (colour_question (Some 7) [new_option "X"]) = Some 7 ∧
   (∀ os o, q_options (colour_question (Some 7) [new_option "X"]) = Some os →
      o ∈ os → ¬ whitespace_only (opt_label o))) ∧
  ((PUT accept_all (colour_question (Some 7) [new_option "X"]) sample_client).1
     = {| status := 200; body := OkBody |} ∧
   (DELETE accept_all (Some 7) sample_client).1 = {| status := 200; body := OkBody |} ∧
   ∀ c2 : client,
     (PUT accept_all (colour_question (Some 7) [new_option "X"]) c2).1
       = (PUT accept_all (colour_question (Some 7) [new_option "X"]) sample_client).1 ∧
     (DELETE accept_all (Some 7) c2).1 = (DELETE accept_all (Some 7) sample_client).1).
Proof.
  assert (∀ s t, accept_all s t = None) as H1 by reflexivity.
  assert (questions (db sample_client) !! 7 = None) as H2 by (vm_compute; reflexivity).
  assert (q_id (colour_question (Some 7) [new_option "X"]) = Some 7) as H3
    by reflexivity.
  assert (∀ os o, q_options (colour_question (Some 7) [new_option "X"]) = Some os →
            o ∈ os → ¬ whitespace_only (opt_label o)) as H4.
  { intros os o [= <-] Hin Hw. apply list_elem_of_singleton in Hin. subst o.
    simpl in Hw. destruct Hw as [Hc _]. vm_compute in Hc. discriminate Hc. }
  split; [by repeat split|].
  exact (PUT_DELETE_missing_question_ok accept_all
           (colour_question (Some 7) [new_option "X"]) sample_client 7 H1 H2 H3 H4).
Defined.

(** * Further properties of the handlers *)

(** ** Outcomes *)

Section Outcomes.

Variable rejects : stmt → tables → option string.

Lemma upsert_for_any (qid : Z) (os : list OptionIn) :
  ∀ (seen : list Z) (c c' : client) (res : string + list Z),
  for_of_acc os (upsert_option rejects qid) seen c = (res, c') →
  questions (db c') = questions (db c) ∧
  ∀ e, res = inl e → ∃ s t, rejects s t = Some e.
Proof.
  induction os as [|o os IH]; intros seen c c' res H; simpl in H.
  - unfold ret in H. injection H as <- <-. by split.
  - unfold bind at 1, upsert_option at 1, bind at 1, execute at 1 in H.
    destruct (rejects (UpsertOption (opt_id o) (option_params qid o)) (db c))
      as [e|] eqn:R.
    + injection H as <- <-. split; [done|]. intros e' [= <-]. eauto.
    + simpl in H. by apply IH in H as [Hq Hthrow].
Qed.

Lemma insert_for_throws (qId : Z) (os : list OptionIn) :
  ∀ (c c' : client) (e : string),
  for_of os (insert_option rejects qId) c = (inl e, c') →
  ∃ s t, rejects s t = Some e.
Proof.
  induction os as [|o os IH]; intros c c' e H; simpl in H; [done|].
  unfold bind at 1, insert_option at 1, bind at 1, execute at 1 in H.
  destruct (rejects (InsertOption (option_params qId o)) (db c)) as [e'|] eqn:R.
  - injection H as <- <-. eauto.
  - simpl in H. by apply IH in H.
Qed.

(** A PUT that passed the validation: either the update of the question
    row is refused and nothing is written, or the row is overwritten and
    the answer is 200, or 500 with the message of the statement that was
    refused later. *)
Lemma PUT_any (b : QuestionIn) (c c' : client) (r : NextResponse) (qid : Z) :
  q_id b = Some qid → some_blank_label b = false →
  PUT rejects b c = (r, c') →
  match rejects (UpdateQuestion (question_params b) qid) (db c) with
  | Some e => r = json_response 500 (ErrorBody e) ∧ c' = c
  | None =>
      questions (db c') = alter (λ _, question_params b) qid (questions (db c)) ∧
      (r = json_response 200 OkBody ∨
       ∃ e s t, r = json_response 500 (ErrorBody e) ∧ rejects s t = Some e)
  end.
Proof.
  intros Hid Hblank H. unfold PUT in H. rewrite Hid, Hblank in H.
  unfold try_catch, bind at 1, execute at 1 in H.
  destruct (rejects (UpdateQuestion (question_params b) qid) (db c)) as [e|] eqn:R.
  { by injection H as <- <-. }
  simpl in H. unfold bind at 1 in H.
  match type of H with
  | context [for_of_acc ?os ?f ?s ?c0] =>
      destruct (for_of_acc os f s c0) as [[e|seen] c2] eqn:Hloop
  end; apply upsert_for_any in Hloop as [Hq Hthrow]; simpl in Hq.
  - injection H as <- <-. split; [done|]. right.
    destruct (Hthrow e eq_refl) as (s & t & Hs). by exists e, s, t.
  - destruct seen as [|k seen].
    + unfold bind, ret in H. injection H as <- <-. split; [done | by left].
    + unfold bind, execute in H.
      destruct (rejects (DeleteOptionsNotIn qid (k :: seen)) (db c2)) as [e|] eqn:R2.
      * injection H as <- <-. split; [done|]. right. exists e; eauto.
      * simpl in H. unfold ret in H. injection H as <- <-. simpl.
        split; [done | by left].
Qed.

(** A POST that passed the validation: either the insert of the question
    is refused and nothing is written, or the question row is stored under
    the new id, with the rows of the first [n] options; the answer is 201
    with the stored question row when all statements went through, and 500
    with the message of the refused statement otherwise. *)
Lemma POST_any (b : QuestionIn) (c c' : client) (r : NextResponse) :
  some_blank_label b = false →
  POST rejects b c = (r, c') →
  match rejects (InsertQuestion (question_params b)) (db c) with
  | Some e => r = json_response 500 (ErrorBody e) ∧ c' = c
  | None =>
      ∃ n : nat,
        (n ≤ length (default [] (q_options b)))%nat ∧
        questions (db c')
          = <[new_rowid (questions (db c)) := question_params b]> (questions (db c)) ∧
        question_options (db c')
          = insert_loop (new_rowid (questions (db c)))
              (take n (default [] (q_options b))) (question_options (db c)) ∧
        ((r = json_response 201
                (RowBody (Some {| row_id := new_rowid (questions (db c));
                                  row_cols := question_params b;
                                  row_options := None |})) ∧
          n = length (default [] (q_options b))) ∨
         ∃ e s t, r = json_response 500 (ErrorBody e) ∧ rejects s t = Some e)
  end.
Proof.
  intros Hblank H. rewrite POST_unfold, Hblank in H.
  unfold try_catch, bind at 1, execute at 1 in H.
  destruct (rejects (InsertQuestion (question_params b)) (db c)) as [e|] eqn:R.
  { by injection H as <- <-. }
  simpl in H. set (qId := new_rowid (questions (db c))) in *.
  unfold bind at 1 in H.
  match type of H with
  | context [for_of ?os ?f ?c0] => destruct (for_of os f c0) as [[e|[]] c2] eqn:Hloop
  end.
  - injection H as <- <-.
    destruct (insert_for_throws _ _ _ _ _ Hloop) as (s & t & Hs).
    apply insert_for_run in Hloop as (n & Hn & _ & Hq & Ho & _). simpl in Hq, Ho.
    exists n. split; [done|]. split; [done|]. split; [done|].
    right. by exists e, s, t.
  - apply insert_for_run in Hloop as (n & Hn & _ & Hq & Ho & Hall).
    simpl in Hq, Ho. rewrite (Hall tt eq_refl) in Ho.
    exists (length (default [] (q_options b))).
    unfold bind, execute in H.
    destruct (rejects (SelectQuestion qId) (db c2)) as [e|] eqn:R2.
    + injection H as <- <-. split; [done|]. split; [done|]. split; [done|].
      right. exists e; eauto.
    + simpl in H. rewrite Hq, lookup_insert_eq in H. unfold ret in H.
      injection H as <- <-. simpl.
      split; [done|]. split; [done|]. split; [done|]. by left.
Qed.

Lemma upsert_for_refused (qid : Z) (os : list OptionIn) :
  ∀ (seen : list Z) (c c' : client) (e : string),
  for_of_acc os (upsert_option rejects qid) seen c = (inl e, c') →
  ∃ o, o ∈ os ∧ rejects (upsert_stmt qid o) (db c') = Some e.
Proof.
  induction os as [|o os IH]; intros seen c c' e H; simpl in H; [done|].
  unfold bind at 1, upsert_option at 1, bind at 1, execute at 1 in H.
  destruct (rejects (UpsertOption (opt_id o) (option_params qid o)) (db c))
    as [e'|] eqn:R.
  - injection H as <- <-. exists o. split; [apply elem_of_cons; by left | done].
  - simpl in H. apply IH in H as (o' & Hin & Ho').
    exists o'. split; [apply elem_of_cons; by right | done].
Qed.

Lemma insert_for_refused (qId : Z) (os : list OptionIn) :
  ∀ (c c' : client) (e : string),
  for_of os (insert_option rejects qId) c = (inl e, c') →
  ∃ o, o ∈ os ∧ rejects (insert_stmt qId o) (db c') = Some e.
Proof.
  induction os as [|o os IH]; intros c c' e H; simpl in H; [done|].
  unfold bind at 1, insert_option at 1, bind at 1, execute at 1 in H.
  destruct (rejects (InsertOption (option_params qId o)) (db c)) as [e'|] eqn:R.
  - injection H as <- <-. exists o. split; [apply elem_of_cons; by left | done].
  - simpl in H. apply IH in H as (o' & Hin & Ho').
    exists o'. split; [apply elem_of_cons; by right | done].
Qed.

(** X1: a handler answers 500 only when the store refused one of its
    statements: the error of the answer is the message with which the
    store, in the state the handler leaves it in, refuses a statement of
    that handler -- the SELECT of GET; the insert of the question, the
    insert of an option of the body or the final select of POST; the update
    of the question, the upsert of an option of the body or the DELETE of
    option rows of PUT; the delete of DELETE. *)
Theorem server_error_only_from_store (c c' : client) (r : NextResponse) :
  status r = 500%nat →
  (GET rejects c = (r, c') →
     ∃ e, body r = ErrorBody e ∧
          rejects SelectQuestionsWithOptions (db c') = Some e) ∧
  (∀ b, POST rejects b c = (r, c') →
     ∃ e s, body r = ErrorBody e ∧ rejects s (db c') = Some e ∧
       (s = InsertQuestion (question_params b) ∨
        (∃ o, o ∈ default [] (q_options b) ∧
              s = InsertOption (option_params (new_rowid (questions (db c))) o)) ∨
        s = SelectQuestion (new_rowid (questions (db c))))) ∧
  (∀ b, PUT rejects b c = (r, c') →
     ∃ e s qid, q_id b = Some qid ∧
       body r = ErrorBody e ∧ rejects s (db c') = Some e ∧
       (s = UpdateQuestion (question_params b) qid ∨
        (∃ o, o ∈ default [] (q_options b) ∧
              s = UpsertOption (opt_id o) (option_params qid o)) ∨
        ∃ seenIds, s = DeleteOptionsNotIn qid seenIds)) ∧
  (∀ id, DELETE rejects id c = (r, c') →
     ∃ e, body r = ErrorBody e ∧ rejects (DeleteQuestion id) (db c') = Some e).
Proof.
  intros Hst. split; [|split; [|split]].
  - intros H. unfold GET, try_catch, bind, execute in H.
    destruct (rejects SelectQuestionsWithOptions (db c)) as [e|] eqn:R.
    + injection H as <- <-. by exists e.
    + simpl in H. unfold ret in H. injection H as <- <-. done.
  - intros b H. rewrite POST_unfold in H.
    destruct (some_blank_label b). { injection H as <- <-. done. }
    unfold try_catch, bind at 1, execute at 1 in H.
    destruct (rejects (InsertQuestion (question_params b)) (db c)) as [e|] eqn:R.
    { injection H as <- <-. exists e, (InsertQuestion (question_params b)).
      split; [done|]. split; [done | by left]. }
    simpl in H. unfold bind at 1 in H.
    match type of H with
    | context [for_of ?os ?f ?c0] => destruct (for_of os f c0) as [[e|[]] c2] eqn:Hloop
    end.
    + injection H as <- <-.
      apply insert_for_refused in Hloop as (o & Hin & Ho).
      exists e, (insert_stmt (new_rowid (questions (db c))) o).
      split; [done|]. split; [done|]. right. left. by exists o.
    + unfold bind, execute in H.
      destruct (rejects (SelectQuestion (new_rowid (questions (db c)))) (db c2))
        as [e|] eqn:R2.
      * injection H as <- <-. exists e, (SelectQuestion (new_rowid (questions (db c)))).
        split; [done|]. split; [done|]. by right; right.
      * simpl in H. unfold ret in H.
        destruct (questions (db c2) !! _); injection H as <- <-; done.
  - intros b H. unfold PUT in H.
    destruct (q_id b) as [qid|] eqn:Hid; [|injection H as <- <-; done].
    destruct (some_blank_label b). { injection H as <- <-. done. }
    unfold try_catch, bind at 1, execute at 1 in H.
    destruct (rejects (UpdateQuestion (question_params b) qid) (db c)) as [e|] eqn:R.
    { injection H as <- <-. exists e, (UpdateQuestion (question_params b) qid), qid.
      split; [done|]. split; [done|]. split; [done | by left]. }
    simpl in H. unfold bind at 1 in H.
    match type of H with
    | context [for_of_acc ?os ?f ?s ?c0] =>
        destruct (for_of_acc os f s c0) as [[e|seen] c2] eqn:Hloop
    end.
    + injection H as <- <-.
      apply upsert_for_refused in Hloop as (o & Hin & Ho).
      exists e, (upsert_stmt qid o), qid.
      split; [done|]. split; [done|]. split; [done|]. right. left. by exists o.
    + destruct seen as [|k seen].
      * unfold bind, ret in H. injection H as <- <-. done.
      * unfold bind, execute in H.
        destruct (rejects (DeleteOptionsNotIn qid (k :: seen)) (db c2)) as [e|] eqn:R2.
        -- injection H as <- <-. exists e, (DeleteOptionsNotIn qid (k :: seen)), qid.
           split; [done|]. split; [done|]. split; [done|]. right. right. by eexists.
        -- simpl in H. unfold ret in H. injection H as <- <-. done.
  - intros id H. unfold DELETE, try_catch, bind, execute in H.
    destruct (rejects (DeleteQuestion id) (db c)) as [e|] eqn:R.
    + injection H as <- <-. by exists e.
    + destruct (run_stmt (DeleteQuestion id) (db c) (last_rowid c)) as [t rs].
      unfold ret in H. injection H as <- <-. done.
Qed.

(** X2: the validation is exact.  POST answers 400 exactly when some
    option label is empty or white space only; PUT answers 400 exactly when
    the id is missing or some label is. *)
Theorem status_400_iff_invalid (b : QuestionIn) (c : client) :
  let blank := ∃ os o, q_options b = Some os ∧ o ∈ os ∧ whitespace_only (opt_label o) in
  (status (POST rejects b c).1 = 400%nat ↔ blank) ∧
  (status (PUT rejects b c).1 = 400%nat ↔ q_id b = None ∨ blank).
Proof.
  intros blank. unfold blank. rewrite <- some_blank_label_true. split; split.
  - intros Hst. destruct (some_blank_label b) eqn:Hblank; [done|]. exfalso.
    destruct (POST rejects b c) as [r c'] eqn:H. simpl in Hst.
    pose proof (POST_any b c c' r Hblank H) as Hany.
    destruct (rejects (InsertQuestion (question_params b)) (db c)).
    + destruct Hany as [-> _]. done.
    + by destruct Hany as (n & _ & _ & _ & [[-> _]|(e & s & t & -> & _)]).
  - intros Hblank. unfold POST. by rewrite Hblank.
  - intros Hst. destruct (q_id b) as [qid|] eqn:Hid; [|by left]. right.
    destruct (some_blank_label b) eqn:Hblank; [done|]. exfalso.
    destruct (PUT rejects b c) as [r c'] eqn:H. simpl in Hst.
    pose proof (PUT_any b c c' r qid Hid Hblank H) as Hany.
    destruct (rejects (UpdateQuestion (question_params b) qid) (db c)).
    + destruct Hany as [-> _]. done.
    + by destruct Hany as (_ & [->|(e & s & t & -> & _)]).
  - intros [Hid|Hblank]; unfold PUT.
    + by rewrite Hid.
    + rewrite Hblank. by destruct (q_id b).
Qed.

End Outcomes.

(** ** The listing *)


Section ListingMore.

Variable rejects : stmt → tables → option string.

Lemma GET_accepted (c : client) :
  rejects SelectQuestionsWithOptions (db c) = None →
  GET rejects c =
    (json_response 200
       (QuestionsBody
          (question_of_row ∘ select_row (question_options (db c))
             <$> map_to_list (questions (db c)))),
     {| db := db c;
        last_rowid := last_rowid c;
        executed := executed c ++ [SelectQuestionsWithOptions] |}).
Proof.
  intros Hacc. unfold GET, try_catch, bind.
  rewrite execute_accepted by done. simpl. unfold ret.
  rewrite <- list_fmap_compose. by destruct (db c).
Qed.

(** X3: the listing is read-only and shows every stored question once: it
    has as many aggregates as there are question rows, their ids are
    pairwise distinct, and a question row is stored under an id exactly
    when an aggregate with that id and the columns of that row is listed. *)
Theorem GET_lists_every_question (c : client) :
  rejects SelectQuestionsWithOptions (db c) = None →
  ∃ listed : list QuestionOut,
    (GET rejects c).1 = {| status := 200; body := QuestionsBody listed |} ∧
    db (GET rejects c).2 = db c ∧
    length listed = size (questions (db c)) ∧
    NoDup (out_id <$> listed) ∧
    ∀ k q,
      questions (db c) !! k = Some q ↔
      ∃ out, out ∈ listed ∧ out_id out = k ∧
        out_field out = qr_field q ∧ out_text out = qr_text q ∧
        out_subtext out = qr_subtext q ∧ out_type out = qr_type q ∧
        out_hint out = qr_hint q ∧
        out_validationKey out = qr_validation_key q ∧
        out_input out = qr_input_config q ∧
        out_next_question_id out = qr_next_question_id q.
Proof.
  intros Hacc. rewrite GET_accepted by done. simpl.
  eexists. split; [done|]. split; [done|]. split; [|split].
  - by rewrite length_fmap, length_map_to_list.
  - rewrite <- list_fmap_compose.
    rewrite (list_fmap_ext _ fst (map_to_list (questions (db c)))) by done.
    apply NoDup_fst_map_to_list.
  - intros k q. split.
    + intros Hq.
      exists (question_of_row (select_row (question_options (db c)) (k, q))).
      split; [|by repeat split].
      apply (list_elem_of_fmap_2
               (question_of_row ∘ select_row (question_options (db c)))
               _ (k, q)).
      by apply elem_of_map_to_list.
    + intros (out & Hin & Hid & Hf).
      apply list_elem_of_fmap in Hin as ([k' q'] & -> & Hin).
      apply elem_of_map_to_list in Hin. simpl in Hid, Hf. subst k'.
      rewrite Hin. f_equal. destruct q, q'. simpl in Hf.
      destruct Hf as (-> & -> & -> & -> & -> & -> & -> & ->). done.
Qed.


End ListingMore.

(** ** More on create *)

Lemma insert_loop_take_new (qId : Z) (os : list OptionIn) (n : nat)
    (m : gmap Z option_row) (i : nat) (o : OptionIn) :
  (i < n)%nat → os !! i = Some o →
  insert_loop qId (take n os) m !! (new_rowid m + Z.of_nat i)
  = Some (option_params qId o).
Proof.
  intros Hi Ho. apply insert_loop_new. by rewrite lookup_take_lt.
Qed.

Lemma insert_loop_beyond (qId : Z) (os : list OptionIn) :
  ∀ (m : gmap Z option_row) (k : Z),
  new_rowid m + Z.of_nat (length os) ≤ k → insert_loop qId os m !! k = None.
Proof.
  induction os as [|o os IH]; intros m k Hk; simpl in *.
  - destruct (m !! k) as [x|] eqn:E; [|done].
    assert (k < new_rowid m) by (apply new_rowid_above; eauto). lia.
  - apply IH. rewrite new_rowid_insert. lia.
Qed.

Section CreateMore.

Variable rejects : stmt → tables → option string.

(** X5: the body of a 201 answer is the question row just stored, under an
    id no question had before; it carries no [options]. *)
Theorem POST_returns_created_row (b : QuestionIn) (c c' : client) (r : NextResponse) :
  POST rejects b c = (r, c') → status r = 201%nat →
  ∃ row : Row,
    body r = RowBody (Some row) ∧
    row_options row = None ∧
    questions (db c) !! row_id row = None ∧
    questions (db c') !! row_id row = Some (row_cols row) ∧
    qr_field (row_cols row) = q_field b ∧
    qr_text (row_cols row) = q_text b ∧
    qr_type (row_cols row) = q_type b.
Proof.
  intros H Hst.
  destruct (some_blank_label b) eqn:Hblank.
  { unfold POST in H. rewrite Hblank in H. injection H as <- <-. done. }
  pose proof (POST_any rejects b c c' r Hblank H) as Hany.
  destruct (rejects (InsertQuestion (question_params b)) (db c)) as [e|].
  { destruct Hany as [-> _]. done. }
  destruct Hany as (n & _ & Hq & _ & [[-> _]|(e & s & t & -> & _)]); [|done].
  eexists. split; [done|]. simpl. split; [done|].
  split; [apply new_rowid_fresh|]. rewrite Hq, lookup_insert_eq. done.
Qed.

(** X6: create is not idempotent.  Two POSTs of the same body, both
    answered 201, store the question twice, under two consecutive new ids. *)
Theorem POST_twice_creates_two_rows (b : QuestionIn) (c c1 c2 : client)
    (r1 r2 : NextResponse) :
  POST rejects b c = (r1, c1) → status r1 = 201%nat →
  POST rejects b c1 = (r2, c2) → status r2 = 201%nat →
  ∃ (k : Z) (row : question_row),
    questions (db c) !! k = None ∧
    questions (db c) !! (k + 1) = None ∧
    questions (db c2) !! k = Some row ∧
    questions (db c2) !! (k + 1) = Some row ∧
    size (questions (db c2)) = S (S (size (questions (db c)))).
Proof.
  intros H1 Hst1 H2 Hst2.
  destruct (some_blank_label b) eqn:Hblank.
  { unfold POST in H1. rewrite Hblank in H1. injection H1 as <- <-. done. }
  pose proof (POST_any rejects b c c1 r1 Hblank H1) as Hany1.
  pose proof (POST_any rejects b c1 c2 r2 Hblank H2) as Hany2.
  destruct (rejects (InsertQuestion (question_params b)) (db c)) as [e|].
  { destruct Hany1 as [-> _]. done. }
  destruct (rejects (InsertQuestion (question_params b)) (db c1)) as [e|].
  { destruct Hany2 as [-> _]. done. }
  destruct Hany1 as (n1 & _ & Hq1 & _).
  destruct Hany2 as (n2 & _ & Hq2 & _).
  rewrite Hq1, new_rowid_insert in Hq2.
  set (k := new_rowid (questions (db c))) in *.
  assert (questions (db c) !! (k + 1) = None) as Hnext.
  { destruct (questions (db c) !! (k + 1)) as [x|] eqn:E; [|done].
    assert (k + 1 < k) by (apply new_rowid_above; eauto). lia. }
  exists k, (question_params b).
  split; [apply new_rowid_fresh|]. split; [done|]. rewrite Hq2.
  split; [|split].
  - rewrite lookup_insert_ne by lia. apply lookup_insert_eq.
  - apply lookup_insert_eq.
  - rewrite map_size_insert_None.
    + f_equal. apply map_size_insert_None, new_rowid_fresh.
    + rewrite lookup_insert_ne by lia. done.
Qed.

(** X7: there is no rollback.  When the store accepts the insert of the
    question and the POST is nevertheless answered 500, the question row
    stays stored under the new id, and so do the rows of the options
    inserted before the failure: the statements executed are the insert of
    the question and the inserts of the first [n] options of the body, the
    rows of these [n] options are stored under the [n] ids after the
    largest one, and no option row is stored beyond them. *)
Theorem POST_failure_keeps_question (b : QuestionIn) (c c' : client) (r : NextResponse) :
  rejects (InsertQuestion (question_params b)) (db c) = None →
  POST rejects b c = (r, c') → status r = 500%nat →
  ∃ (qId : Z) (n : nat),
    questions (db c) !! qId = None ∧
    questions (db c') !! qId = Some (question_params b) ∧
    (n ≤ length (default [] (q_options b)))%nat ∧
    executed c' = executed c
      ++ InsertQuestion (question_params b)
      :: (InsertOption ∘ option_params qId <$> take n (default [] (q_options b))) ∧
    (∀ i o, (i < n)%nat → default [] (q_options b) !! i = Some o →
       question_options (db c) !! (new_rowid (question_options (db c)) + Z.of_nat i)
         = None ∧
       question_options (db c') !! (new_rowid (question_options (db c)) + Z.of_nat i)
         = Some (option_params qId o)) ∧
    (∀ k, new_rowid (question_options (db c)) + Z.of_nat n ≤ k →
       question_options (db c') !! k = None).
Proof.
  intros Hacc H Hst. rewrite POST_unfold in H.
  destruct (some_blank_label b). { injection H as <- <-. done. }
  unfold try_catch, bind at 1, execute at 1 in H. rewrite Hacc in H.
  simpl in H. set (qId := new_rowid (questions (db c))) in *.
  unfold bind at 1 in H.
  match type of H with
  | context [for_of ?os ?f ?c0] => destruct (for_of os f c0) as [[e|[]] c2] eqn:Hloop
  end; apply insert_for_run in Hloop as (n & Hn & Hlog & Hq & Ho & Hall);
    simpl in Hlog, Hq, Ho.
  - injection H as <- <-. exists qId, n.
    split; [apply new_rowid_fresh|]. split; [by rewrite Hq, lookup_insert_eq|].
    split; [done|]. split; [|split].
    + rewrite Hlog, <- app_assoc. simpl. by rewrite fmap_take.
    + intros i o Hi Hlook. split.
      * destruct (question_options (db c) !! _) as [x|] eqn:E; [|done].
        assert (new_rowid (question_options (db c)) + Z.of_nat i
                < new_rowid (question_options (db c)))
          by (apply new_rowid_above; eauto).
        lia.
      * rewrite Ho. by apply insert_loop_take_new.
    + intros k Hk. rewrite Ho. apply insert_loop_beyond.
      rewrite length_take_le by done. lia.
  - unfold bind, execute in H.
    destruct (rejects (SelectQuestion qId) (db c2)) as [e|] eqn:R2.
    + injection H as <- <-. rewrite (Hall tt eq_refl) in *.
      exists qId, (length (default [] (q_options b))).
      split; [apply new_rowid_fresh|]. split; [by rewrite Hq, lookup_insert_eq|].
      split; [done|]. split; [|split].
      * rewrite Hlog, <- app_assoc. simpl. by rewrite fmap_take.
      * intros i o Hi Hlook. split.
        -- destruct (question_options (db c) !! _) as [x|] eqn:E; [|done].
           assert (new_rowid (question_options (db c)) + Z.of_nat i
                   < new_rowid (question_options (db c)))
             by (apply new_rowid_above; eauto).
           lia.
        -- rewrite Ho. by apply insert_loop_take_new.
      * intros k Hk. rewrite Ho. apply insert_loop_beyond.
        rewrite length_take_le by done. lia.
    + simpl in H. unfold ret in H.
      destruct (questions (db c2) !! _); injection H as <- <-; done.
Qed.

(** X8: whatever its outcome, a POST leaves every stored question row and
    every stored option row as it was. *)
Theorem POST_keeps_stored_rows (b : QuestionIn) (c c' : client) (r : NextResponse) :
  POST rejects b c = (r, c') →
  (∀ k q, questions (db c) !! k = Some q → questions (db c') !! k = Some q) ∧
  (∀ k o, question_options (db c) !! k = Some o →
     question_options (db c') !! k = Some o).
Proof.
  intros H.
  destruct (some_blank_label b) eqn:Hblank.
  { unfold POST in H. rewrite Hblank in H. by injection H as <- <-. }
  pose proof (POST_any rejects b c c' r Hblank H) as Hany.
  destruct (rejects (InsertQuestion (question_params b)) (db c)) as [e|].
  { by destruct Hany as [_ ->]. }
  destruct Hany as (n & _ & Hq & Ho & _). split.
  - intros k q Hk. rewrite Hq, lookup_insert_ne; [done|].
    intros E. rewrite <- E, new_rowid_fresh in Hk. done.
  - intros k o Hk. rewrite Ho, insert_loop_old; [done|].
    apply new_rowid_above. eauto.
Qed.


End CreateMore.

(** ** More on the listing: the unmatched row *)

Section ListingPlaceholder.

Variable rejects : stmt → tables → option string.

(** X10: the [options] array of a listed question is never empty: it
    holds the object of nulls exactly when the question has no option row,
    and then nothing else. *)
Theorem GET_options_never_empty (c : client) (out : QuestionOut)
    (listed : list QuestionOut) :
  (GET rejects c).1 = {| status := 200; body := QuestionsBody listed |} →
  out ∈ listed →
  ∃ items : list json,
    out_options out = JArr items ∧ items ≠ [] ∧
    (null_option ∈ items ↔
     ∀ key row, question_options (db c) !! key = Some row →
       or_question_id row ≠ out_id out) ∧
    (null_option ∈ items → items = [null_option]).
Proof.
  intros Hget Hin.
  destruct (rejects SelectQuestionsWithOptions (db c)) as [e|] eqn:R.
  { unfold GET, try_catch, bind, execute in Hget. rewrite R in Hget. done. }
  rewrite GET_accepted in Hget by done. simpl in Hget. injection Hget as <-.
  apply list_elem_of_fmap in Hin as ([k q] & -> & _). simpl.
  eexists. split; [done|]. unfold left_join_options.
  destruct (filter _ (map_to_list (question_options (db c)))) as [|[key0 row0] l] eqn:E.
  - simpl. split; [done|]. split; [|done]. split.
    + intros _ key row Hrow Howner.
      assert ((key, row) ∈ filter (λ kr : Z * option_row, or_question_id kr.2 = k)
                             (map_to_list (question_options (db c)))) as Hf.
      { apply list_elem_of_filter. split; [done|]. by apply elem_of_map_to_list. }
      rewrite E in Hf. by apply elem_of_nil in Hf.
    + intros _. apply list_elem_of_singleton. done.
  - assert (null_option ∉ json_object_of_option <$> (Some <$> (key0, row0) :: l))
      as Hnot.
    { intros Hnull. apply list_elem_of_fmap in Hnull as (x & Hx & Hxin).
      apply list_elem_of_fmap in Hxin as ([key row] & -> & _). discriminate Hx. }
    split; [done|]. split; [|by intros Hnull; destruct (Hnot Hnull)]. split.
    + intros Hnull. by destruct (Hnot Hnull).
    + intros Hnone. exfalso.
      assert ((key0, row0) ∈ filter (λ kr : Z * option_row, or_question_id kr.2 = k)
                               (map_to_list (question_options (db c)))) as Hf
        by (rewrite E; apply elem_of_cons; by left).
      apply list_elem_of_filter in Hf as [Howner Hf].
      apply elem_of_map_to_list in Hf. by destruct (Hnone key0 row0 Hf).
Qed.

End ListingPlaceholder.

(** ** More on the update *)

Lemma last_with_id_None (k : Z) (os : list OptionIn) :
  (∀ o, o ∈ os → opt_id o ≠ Some k) → last_with_id k os = None.
Proof.
  induction os as [|o os IH]; intros Hno; simpl; [done|].
  rewrite IH by (intros o' Hin; apply Hno, elem_of_cons; by right).
  rewrite decide_False; [done|]. apply Hno, elem_of_cons. by left.
Qed.

Lemma last_with_id_split (k : Z) (l1 l2 : list OptionIn) (o : OptionIn) :
  opt_id o = Some k → (∀ o', o' ∈ l2 → opt_id o' ≠ Some k) →
  last_with_id k (l1 ++ o :: l2) = Some o.
Proof.
  intros Hid Hno. induction l1 as [|o1 l1 IH]; simpl.
  - rewrite last_with_id_None by done. by rewrite decide_True.
  - by rewrite IH.
Qed.

(** A stored row is left by the upsert loop as the last option of the
    payload that names it has it, under its old owner; a row that no option
    names is left as it was. *)
Lemma upsert_loop_existing (qid : Z) (os : list OptionIn) :
  ∀ (st : gmap Z option_row * list Z) (k : Z) (old : option_row),
  st.1 !! k = Some old →
  (upsert_loop qid os st).1 !! k =
    Some match last_with_id k os with
         | Some o => option_params (or_question_id old) o
         | None => old
         end.
Proof.
  induction os as [|o os IH]; intros st k old Hk; simpl; [done|].
  destruct (opt_id o) as [k0|] eqn:Hid.
  - destruct (decide (k0 = k)) as [->|Hne].
    + rewrite (IH _ k (option_params (or_question_id old) o)).
      * rewrite decide_True by done. by destruct (last_with_id k os).
      * simpl. unfold upsert_rows. rewrite Hid, Hk. apply lookup_insert_eq.
    + rewrite (IH _ k old).
      * rewrite decide_False by congruence. by destruct (last_with_id k os).
      * simpl. unfold upsert_rows. rewrite Hid.
        destruct (st.1 !! k0); by rewrite lookup_insert_ne.
  - rewrite (IH _ k old).
    + rewrite decide_False by done. by destruct (last_with_id k os).
    + simpl. unfold upsert_rows. rewrite Hid. rewrite lookup_insert_ne; [done|].
      intros E. rewrite <- E, new_rowid_fresh in Hk. done.
Qed.

(** An id on [seenIds] is the id of an option of the payload, or the key
    of a row that did not exist before. *)
Lemma upsert_loop_seen_elem (qid : Z) (os : list OptionIn)
    (m : gmap Z option_row) (k : Z) :
  exact_ids m os →
  k ∈ (upsert_loop qid os (m, [])).2 →
  (∃ o, o ∈ os ∧ opt_id o = Some k) ∨ m !! k = None.
Proof.
  intros Hexact.
  destruct (upsert_loop_seen qid os (m, []) Hexact) as (ids & -> & Hlen & Hall).
  simpl. intros Hin. apply list_elem_of_lookup_1 in Hin as [i Hi].
  assert (is_Some (os !! i)) as [o Ho].
  { apply lookup_lt_is_Some. rewrite <- Hlen. by apply lookup_lt_Some in Hi. }
  destruct (Hall i o Ho) as (k' & row & Hk' & Hsame & _ & Hnew).
  assert (k' = k) as -> by congruence.
  destruct (opt_id o) as [k0|] eqn:Hid.
  - left. exists o. split; [by apply list_elem_of_lookup_2 in Ho|].
    by rewrite (Hsame k0 eq_refl).
  - right. by destruct (Hnew eq_refl).
Qed.

Lemma upsert_loop_seen_named (qid : Z) (os : list OptionIn)
    (m : gmap Z option_row) (o : OptionIn) (k : Z) :
  o ∈ os → opt_id o = Some k → k ∈ (upsert_loop qid os (m, [])).2.
Proof.
  intros Hin Hid.
  destruct (upsert_loop_pushed qid os (m, [])) as (ids & -> & Hlen & Hall).
  apply list_elem_of_lookup_1 in Hin as [i Hi].
  pose proof (Hall i o k Hi Hid) as Hk'.
  simpl. by apply list_elem_of_lookup_2 in Hk'.
Qed.

Lemma reconcile_lookup (qid : Z) (os : list OptionIn) (m : gmap Z option_row)
    (k : Z) (row : option_row) :
  reconcile qid os m !! k = Some row ↔
  (upsert_loop qid os (m, [])).1 !! k = Some row ∧
  (or_question_id row = qid → k ∈ (upsert_loop qid os (m, [])).2 ∨ os = []).
Proof.
  unfold reconcile, delete_removed.
  destruct (upsert_loop_pushed qid os (m, [])) as (ids & Hids & Hlen & _).
  simpl in Hids.
  destruct ((upsert_loop qid os (m, [])).2) as [|k0 seen] eqn:E.
  - assert (os = []) as ->.
    { symmetry in Hids. subst ids. destruct os; [done | simpl in Hlen; lia]. }
    split; [intros H; split; [done | by right] | by intros [H _]].
  - rewrite lookup_delete_not_in. split.
    + intros [Hrow Hkeep]. split; [done|]. intros Hq. left.
      destruct (decide (k ∈ k0 :: seen)); [done|]. by destruct Hkeep.
    + intros [Hrow Hkeep]. split; [done|]. intros [Hq Hnot].
      destruct (Hkeep Hq) as [Hin| ->]; [done|]. simpl in E. discriminate E.
Qed.

(** With exact ids, a row of the question that no option of a non-empty
    payload names is gone after the reconciliation. *)
Lemma reconcile_unlisted (qid : Z) (os : list OptionIn) (m : gmap Z option_row)
    (k : Z) (old : option_row) :
  exact_ids m os →
  os ≠ [] → m !! k = Some old → or_question_id old = qid →
  (∀ o, o ∈ os → opt_id o ≠ Some k) →
  reconcile qid os m !! k = None.
Proof.
  intros Hexact Hne Hold Howner Hno.
  destruct (reconcile qid os m !! k) as [row|] eqn:E; [|done]. exfalso.
  apply reconcile_lookup in E as [Hrow Hkeep].
  rewrite (upsert_loop_existing qid os (m, []) k old Hold) in Hrow.
  rewrite last_with_id_None in Hrow by done. injection Hrow as <-.
  destruct (Hkeep Howner) as [Hin|Hnil]; [|done].
  apply upsert_loop_seen_elem in Hin as [(o & Hin & Ho)|Hnone]; [| |done].
  - by destruct (Hno o Hin).
  - congruence.
Qed.

(** With exact ids, the row inserted for an option without id is still as
    the option has it at the end of the loop, unless another option of the
    payload carries the id the store gave it. *)
Lemma upsert_loop_new_row (qid : Z) (os : list OptionIn) :
  ∀ (st : gmap Z option_row * list Z) (ids : list Z),
  exact_ids st.1 os →
  (upsert_loop qid os st).2 = st.2 ++ ids →
  ∀ (i : nat) (o : OptionIn) (k : Z),
  os !! i = Some o → opt_id o = None → ids !! i = Some k →
  (∀ o', o' ∈ os → opt_id o' ≠ Some k) →
  (upsert_loop qid os st).1 !! k = Some (option_params qid o).
Proof.
  induction os as [|o0 os IH]; intros st ids Hexact Hids i o k Hi Hnone Hk Hno.
  { by rewrite lookup_nil in Hi. }
  pose proof (exact_ids_new_rowid st.1 o0 os Hexact) as Hnew.
  assert (Number (new_rowid st.1) = new_rowid st.1) as Hnum.
  { apply Number_exact. unfold two53 in *. lia. }
  change (upsert_loop qid (o0 :: os) st)
    with (upsert_loop qid os (upsert_step qid st o0)) in *.
  destruct (upsert_loop_pushed qid os (upsert_step qid st o0))
    as (ids' & Hids' & _ & _).
  assert (ids = default (Number (new_rowid st.1)) (opt_id o0) :: ids') as ->.
  { rewrite Hids' in Hids. simpl in Hids. rewrite <- app_assoc in Hids.
    by apply app_inv_head in Hids. }
  destruct i as [|i]; simpl in Hi, Hk.
  - injection Hi as ->. rewrite Hnone in Hk. simpl in Hk. rewrite Hnum in Hk.
    injection Hk as <-.
    rewrite (upsert_loop_existing qid os (upsert_step qid st o) (new_rowid st.1)
               (option_params qid o)).
    + rewrite last_with_id_None; [done|].
      intros o' Hin. apply Hno, elem_of_cons. by right.
    + simpl. unfold upsert_rows. rewrite Hnone. apply lookup_insert_eq.
  - apply (IH (upsert_step qid st o0) ids' (exact_ids_step qid _ _ _ Hexact) Hids' i);
      try done.
    intros o' Hin. apply Hno, elem_of_cons. by right.
Qed.

Section UpdateMore.

Variable rejects : stmt → tables → option string.

(** X11: removals become deletes, when the ids are exact (no id the loop
    meets is beyond 2^53, where [Number] rounds).  After a PUT with a
    non-empty option array that ran to its end, an option row of the
    question whose id no option of the payload carries is gone. *)
Theorem PUT_deletes_unlisted_option (b : QuestionIn) (c c' : client) (r : NextResponse)
    (qid : Z) (os : list OptionIn) (k : Z) (old : option_row) :
  q_id b = Some qid → q_options b = Some os → os ≠ [] →
  exact_ids (question_options (db c)) os →
  question_options (db c) !! k = Some old → or_question_id old = qid →
  (∀ o, o ∈ os → opt_id o ≠ Some k) →
  PUT rejects b c = (r, c') → status r = 200%nat →
  question_options (db c') !! k = None.
Proof.
  intros Hid Hos Hne Hexact Hold Howner Hno Hput Hst.
  destruct (PUT_200 rejects b c c' r Hput Hst)
    as (qid' & seen & Hid' & _ & _ & _ & _ & Hopts & _).
  assert (qid' = qid) as -> by congruence.
  rewrite Hos in Hopts. simpl in Hopts. rewrite Hopts.
  by apply (reconcile_unlisted qid os _ k old).
Qed.

(** X12: an option of the payload that carries the id of a stored row
    updates that row in place.  After a PUT that ran to its end the row
    holds the label, next question and price modifier (0 when absent) of
    the last option of the payload with that id, and belongs to the
    question it belonged to before, whichever that is. *)
Theorem PUT_updates_listed_option (b : QuestionIn) (c c' : client) (r : NextResponse)
    (qid : Z) (l1 l2 : list OptionIn) (o : OptionIn) (k : Z) (old : option_row) :
  q_id b = Some qid → q_options b = Some (l1 ++ o :: l2) →
  opt_id o = Some k → (∀ o', o' ∈ l2 → opt_id o' ≠ Some k) →
  question_options (db c) !! k = Some old →
  PUT rejects b c = (r, c') → status r = 200%nat →
  question_options (db c') !! k =
    Some {| or_question_id := or_question_id old;
            or_label := opt_label o;
            or_next_question_id := opt_next_question_id o;
            or_price_modifier :=
              Some (match opt_price_modifier o with Some p => p | None => 0 end) |}.
Proof.
  intros Hid Hos Ho Hlast Hold Hput Hst.
  destruct (PUT_200 rejects b c c' r Hput Hst)
    as (qid' & seen & Hid' & _ & _ & _ & _ & Hopts & _).
  assert (qid' = qid) as -> by congruence.
  rewrite Hos in Hopts. simpl in Hopts. rewrite Hopts.
  apply reconcile_lookup. split.
  - rewrite (upsert_loop_existing qid _ (question_options (db c), []) k old Hold).
    rewrite last_with_id_split by done. unfold option_params.
    by destruct (opt_price_modifier o).
  - intros _. left. apply (upsert_loop_seen_named qid _ _ o); [|done].
    apply elem_of_app. right. apply elem_of_cons. by left.
Qed.

(** X13: a PUT that ran to its end leaves alone every option row of
    another question whose id no option of the payload carries. *)
Theorem PUT_keeps_rows_of_other_questions (b : QuestionIn) (c c' : client)
    (r : NextResponse) (qid k : Z) (old : option_row) :
  q_id b = Some qid →
  question_options (db c) !! k = Some old → or_question_id old ≠ qid →
  (∀ os o, q_options b = Some os → o ∈ os → opt_id o ≠ Some k) →
  PUT rejects b c = (r, c') → status r = 200%nat →
  question_options (db c') !! k = Some old.
Proof.
  intros Hid Hold Howner Hno Hput Hst.
  destruct (PUT_200 rejects b c c' r Hput Hst)
    as (qid' & seen & Hid' & _ & _ & _ & _ & Hopts & _).
  assert (qid' = qid) as -> by congruence.
  rewrite Hopts. apply reconcile_lookup. split; [|done].
  rewrite (upsert_loop_existing qid _ (question_options (db c), []) k old Hold).
  rewrite last_with_id_None; [done|].
  intros o Hin. destruct (q_options b) as [os|] eqn:Hos; simpl in Hin.
  - by apply (Hno os).
  - by apply elem_of_nil in Hin.
Qed.

(** X14: a PUT never moves an option row to another question: a stored
    row that is still there after a PUT that ran to its end has the
    [question_id] it had. *)
Theorem PUT_keeps_owner (b : QuestionIn) (c c' : client) (r : NextResponse)
    (k : Z) (old row : option_row) :
  PUT rejects b c = (r, c') → status r = 200%nat →
  question_options (db c) !! k = Some old →
  question_options (db c') !! k = Some row →
  or_question_id row = or_question_id old.
Proof.
  intros Hput Hst Hold Hrow.
  destruct (PUT_200 rejects b c c' r Hput Hst)
    as (qid & seen & _ & _ & _ & _ & _ & Hopts & _).
  rewrite Hopts in Hrow. apply reconcile_lookup in Hrow as [Hrow _].
  destruct (upsert_loop_preserves qid (default [] (q_options b))
              (question_options (db c), []) k old Hold) as (r' & Hr' & Hq').
  congruence.
Qed.

(** X15: a PUT for an id that no question has, with an option without id,
    and that ran to its end (the store enforcing no foreign key), leaves an
    option row whose parent question does not exist, when the ids are
    exact. *)
Theorem PUT_missing_question_orphans_option (b : QuestionIn) (c c' : client)
    (r : NextResponse) (qid : Z) (os : list OptionIn) (o : OptionIn) :
  q_id b = Some qid → q_options b = Some os → o ∈ os → opt_id o = None →
  exact_ids (question_options (db c)) os →
  questions (db c) !! qid = None →
  PUT rejects b c = (r, c') → status r = 200%nat →
  questions (db c') !! qid = None ∧
  ∃ k row, question_options (db c) !! k = None ∧
    question_options (db c') !! k = Some row ∧ or_question_id row = qid.
Proof.
  intros Hid Hos Hin Hnone Hexact Hq Hput Hst.
  destruct (PUT_200 rejects b c c' r Hput Hst)
    as (qid' & seen & Hid' & _ & _ & Hqs & _ & Hopts & _).
  assert (qid' = qid) as -> by congruence.
  rewrite Hos in Hopts. simpl in Hopts. split.
  - rewrite Hqs, lookup_alter_eq, Hq. done.
  - destruct (upsert_loop_seen qid os (question_options (db c), []) Hexact)
      as (ids & Hids & Hlen & Hall).
    apply list_elem_of_lookup_1 in Hin as [i Hi].
    destruct (Hall i o Hi) as (k & row & Hk & _ & Hrow & Hnew).
    destruct (Hnew Hnone) as [Hfresh Howner]. simpl in Hfresh.
    exists k, row. split; [done|]. split; [|done].
    rewrite Hopts. apply reconcile_lookup. split; [done|].
    intros _. left. rewrite Hids. simpl. by apply list_elem_of_lookup_2 in Hk.
Qed.

(** X16: a PUT whose body has no [options] field leaves the option table
    as it was, whatever the outcome, and sends no DELETE of option rows. *)
Theorem PUT_absent_options_keeps_rows (b : QuestionIn) (c c' : client) (r : NextResponse) :
  q_options b = None →
  PUT rejects b c = (r, c') →
  question_options (db c') = question_options (db c) ∧
  ∃ sent : list stmt,
    executed c' = executed c ++ sent ∧
    ∀ qid ids, DeleteOptionsNotIn qid ids ∉ sent.
Proof.
  intros Hos. unfold PUT, some_blank_label. rewrite Hos. simpl.
  destruct (q_id b) as [qid|].
  - unfold try_catch, bind, execute. simpl.
    destruct (rejects (UpdateQuestion (question_params b) qid) (db c)); simpl.
    + intros [= <- <-]. split; [done|]. exists []. rewrite app_nil_r.
      split; [done|]. intros ? ?. apply not_elem_of_nil.
    + intros [= <- <-]. simpl. split; [done|].
      exists [UpdateQuestion (question_params b) qid]. split; [done|].
      intros ? ? Hin. by apply list_elem_of_singleton in Hin.
  - intros [= <- <-]. split; [done|]. exists []. rewrite app_nil_r.
    split; [done|]. intros ? ?. apply not_elem_of_nil.
Qed.

(** X17: there is no rollback.  When the store accepts the update of the
    question row and the PUT is nevertheless answered 500, the question row
    stays overwritten with the fields of the body. *)
Theorem PUT_failure_keeps_question_update (b : QuestionIn) (c c' : client)
    (r : NextResponse) (qid : Z) (old : question_row) :
  q_id b = Some qid →
  questions (db c) !! qid = Some old →
  rejects (UpdateQuestion (question_params b) qid) (db c) = None →
  PUT rejects b c = (r, c') → status r = 500%nat →
  questions (db c') !! qid = Some (question_params b).
Proof.
  intros Hid Hold Hacc Hput Hst.
  destruct (some_blank_label b) eqn:Hblank.
  { unfold PUT in Hput. rewrite Hid, Hblank in Hput. injection Hput as <- <-. done. }
  pose proof (PUT_any rejects b c c' r qid Hid Hblank Hput) as Hany.
  rewrite Hacc in Hany. destruct Hany as [Hq _].
  by rewrite Hq, lookup_alter_eq, Hold.
Qed.

(** X27: the reconciliation, when the ids are exact (no id the loop meets
    is beyond 2^53, where [Number] rounds).  After a PUT with a non-empty
    option array that ran to its end, the last statement executed is the
    DELETE bound to the kept ids, one per incoming option, the option's own
    id when it carries one; every stored option row of the question whose
    id is not kept is gone and every remaining row of the question has a
    kept id; and every incoming option without id has a row under a kept id
    that was unused before, which belongs to the question and holds the
    label, next question and price modifier (0 when absent) of the option,
    unless another option of the payload carries that very id. *)
Theorem PUT_reconciles_exact_ids (b : QuestionIn) (c c' : client) (r : NextResponse)
    (qid : Z) (os : list OptionIn) :
  q_id b = Some qid → q_options b = Some os → os ≠ [] →
  exact_ids (question_options (db c)) os →
  PUT rejects b c = (r, c') → status r = 200%nat →
  ∃ seenIds : list Z,
    last (executed c') = Some (DeleteOptionsNotIn qid seenIds) ∧
    length seenIds = length os ∧
    (∀ i o k, os !! i = Some o → opt_id o = Some k → seenIds !! i = Some k) ∧
    (∀ k old, question_options (db c) !! k = Some old →
       or_question_id old = qid → k ∉ seenIds →
       question_options (db c') !! k = None) ∧
    (∀ k row, question_options (db c') !! k = Some row →
       or_question_id row = qid → k ∈ seenIds) ∧
    (∀ i o, os !! i = Some o → opt_id o = None →
       ∃ k row, seenIds !! i = Some k ∧
         question_options (db c) !! k = None ∧
         question_options (db c') !! k = Some row ∧
         or_question_id row = qid ∧
         ((∀ o', o' ∈ os → opt_id o' ≠ Some k) →
          row = {| or_question_id := qid;
                   or_label := opt_label o;
                   or_next_question_id := opt_next_question_id o;
                   or_price_modifier :=
                     Some (match opt_price_modifier o with
                           | Some p => p
                           | None => 0
                           end) |})).
Proof.
  intros Hid Hos Hne Hexact Hput Hst.
  destruct (PUT_200 rejects b c c' r Hput Hst)
    as (qid' & seen & Hid' & _ & _ & _ & Hseen & Hopts & Hlog).
  assert (qid' = qid) as -> by congruence.
  rewrite Hos in Hseen, Hopts, Hlog. simpl in Hseen, Hopts, Hlog.
  destruct (upsert_loop_seen qid os (question_options (db c), []) Hexact)
    as (ids & Hids & Hlen & Hall).
  simpl in Hids. rewrite <- Hseen in Hids. subst ids.
  assert (∃ k0 seen0, seen = k0 :: seen0) as (k0 & seen0 & Hcons).
  { destruct seen; [|by eauto]. destruct os; [done | simpl in Hlen; lia]. }
  assert (question_options (db c')
          = delete_not_in qid seen
              (upsert_loop qid os (question_options (db c), [])).1) as Hfinal.
  { rewrite Hopts. unfold reconcile, delete_removed. rewrite <- Hseen.
    by rewrite Hcons. }
  exists seen. split; [|split; [done|split; [|split; [|split]]]].
  - rewrite Hlog, Hcons. rewrite app_comm_cons, app_assoc. apply last_snoc.
  - intros i o k Hi Hk. destruct (Hall i o Hi) as (k1 & r1 & Hk1 & Hsame & _).
    by rewrite (Hsame k Hk) in Hk1.
  - intros k old Hold Hq Hnot.
    destruct (question_options (db c') !! k) as [row|] eqn:E; [|done].
    rewrite Hfinal in E. apply lookup_delete_not_in in E as [Hrow Hkeep].
    destruct (upsert_loop_preserves qid os (question_options (db c), []) k old Hold)
      as (r' & Hr' & Hq').
    rewrite Hrow in Hr'. injection Hr' as <-.
    exfalso. apply Hkeep. split; [congruence | done].
  - intros k row Hrow Hq. rewrite Hfinal in Hrow.
    apply lookup_delete_not_in in Hrow as [_ Hkeep].
    destruct (decide (k ∈ seen)); [done|]. by destruct Hkeep.
  - intros i o Hi Hnone.
    destruct (Hall i o Hi) as (k & row & Hk & _ & Hrow & Hnew).
    destruct (Hnew Hnone) as [Hfresh Hq].
    assert (question_options (db c') !! k = Some row) as Hkept.
    { rewrite Hfinal. apply lookup_delete_not_in. split; [done|].
      intros [_ Hnot]. apply Hnot. by apply list_elem_of_lookup_2 in Hk. }
    exists k, row. split; [done|]. split; [done|]. split; [done|]. split; [done|].
    intros Hno.
    pose proof (upsert_loop_new_row qid os (question_options (db c), []) seen
                  Hexact (eq_sym Hseen) i o k Hi Hnone Hk Hno) as Hrow'.
    rewrite Hrow in Hrow'. injection Hrow' as ->.
    unfold option_params. by destruct (opt_price_modifier o).
Qed.

End UpdateMore.

(** ** Delete *)

Lemma filter_owner_twice (id : Z) (m : gmap Z option_row) :
  filter (λ kr : Z * option_row, or_question_id kr.2 ≠ id)
    (filter (λ kr : Z * option_row, or_question_id kr.2 ≠ id) m)
  = filter (λ kr : Z * option_row, or_question_id kr.2 ≠ id) m.
Proof.
  apply map_eq. intros k. apply option_eq. intros row.
  rewrite !map_lookup_filter_Some. tauto.
Qed.

Section DeleteMore.

Variable rejects : stmt → tables → option string.

Lemma DELETE_run (id : option Z) (c : client) :
  DELETE rejects id c =
    match rejects (DeleteQuestion id) (db c) with
    | Some e => (json_response 500 (ErrorBody e), c)
    | None =>
        (json_response 200 OkBody,
         {| db := (run_stmt (DeleteQuestion id) (db c) (last_rowid c)).1;
            last_rowid := last_rowid c;
            executed := executed c ++ [DeleteQuestion id] |})
    end.
Proof.
  unfold DELETE, try_catch, bind, execute.
  destruct (rejects (DeleteQuestion id) (db c)); [done|]. by destruct id.
Qed.

(** X18: a DELETE answered 200 removes the question row with the given id
    and nothing else from the question table, and leaves the option rows of
    the other questions as they were; a DELETE not answered 200 changes
    nothing. *)
Theorem DELETE_removes_question (id : Z) (c c' : client) (r : NextResponse) :
  DELETE rejects (Some id) c = (r, c') →
  (status r = 200%nat →
     questions (db c') !! id = None ∧
     (∀ k, k ≠ id → questions (db c') !! k = questions (db c) !! k) ∧
     (∀ k row, question_options (db c) !! k = Some row →
        or_question_id row ≠ id → question_options (db c') !! k = Some row)) ∧
  (status r ≠ 200%nat → c' = c).
Proof.
  rewrite DELETE_run.
  destruct (rejects (DeleteQuestion (Some id)) (db c)); intros [= <- <-]; simpl.
  - split; [done|]. done.
  - split; [|done]. intros _. split; [apply lookup_delete_eq|]. split.
    + intros k Hk. by apply lookup_delete_ne.
    + intros k row Hrow Howner. by apply map_lookup_filter_Some.
Qed.

(** X19: create, then delete.  Deleting the question whose row a POST
    returned puts the question table back as it was before the POST, and
    leaves the stored option rows of the other questions as they were. *)
Theorem POST_then_DELETE_restores_questions (b : QuestionIn) (c c1 c2 : client)
    (r1 r2 : NextResponse) (row : Row) :
  POST rejects b c = (r1, c1) → body r1 = RowBody (Some row) →
  DELETE rejects (Some (row_id row)) c1 = (r2, c2) → status r2 = 200%nat →
  questions (db c2) = questions (db c) ∧
  ∀ k o, question_options (db c) !! k = Some o →
    or_question_id o ≠ row_id row → question_options (db c2) !! k = Some o.
Proof.
  intros Hpost Hbody Hdel Hst.
  destruct (some_blank_label b) eqn:Hblank.
  { unfold POST in Hpost. rewrite Hblank in Hpost. injection Hpost as <- <-. done. }
  pose proof (POST_any rejects b c c1 r1 Hblank Hpost) as Hany.
  destruct (rejects (InsertQuestion (question_params b)) (db c)) as [e|].
  { destruct Hany as [-> _]. done. }
  destruct Hany as (n & _ & Hq & Ho & [[-> _]|(e & s & t & -> & _)]); [|done].
  simpl in Hbody. injection Hbody as <-. simpl in *.
  rewrite DELETE_run in Hdel.
  destruct (rejects (DeleteQuestion (Some (new_rowid (questions (db c))))) (db c1)).
  { injection Hdel as <- <-. done. }
  injection Hdel as <- <-. simpl. split.
  - rewrite Hq, delete_insert_eq. apply delete_id, new_rowid_fresh.
  - intros k o Hk Howner. apply map_lookup_filter_Some. split; [|done].
    rewrite Ho, insert_loop_old; [done|]. apply new_rowid_above. eauto.
Qed.

(** X20: delete is idempotent: after a DELETE answered 200, a second DELETE
    of the same id leaves both tables as the first one left them. *)
Theorem DELETE_twice (id : option Z) (c c1 c2 : client) (r1 r2 : NextResponse) :
  DELETE rejects id c = (r1, c1) → status r1 = 200%nat →
  DELETE rejects id c1 = (r2, c2) →
  db c2 = db c1.
Proof.
  rewrite !DELETE_run. intros H1 Hst H2.
  destruct (rejects (DeleteQuestion id) (db c)); injection H1 as <- <-; [done|].
  destruct (rejects (DeleteQuestion id) _); injection H2 as <- <-; [done|].
  destruct id as [k|]; simpl; [|by destruct (db c)].
  by rewrite delete_delete_eq, filter_owner_twice.
Qed.

End DeleteMore.

(** ** The editor *)

Lemma filter_index_delete {A : Type} (idx : nat) (xs : list A) :
  ∀ i : nat,
  Page.filter_index (λ _ j, negb (j =? idx)%nat) xs i
  = if decide (i ≤ idx)%nat then delete (idx - i)%nat xs else xs.
Proof.
  induction xs as [|x xs IH]; intros i; simpl.
  - by destruct (decide (i ≤ idx)%nat).
  - rewrite IH. destruct (Nat.eqb_spec i idx) as [->|Hne]; simpl.
    + rewrite decide_False by lia. rewrite decide_True by lia.
      by rewrite Nat.sub_diag.
    + destruct (decide (i ≤ idx)%nat) as [Hle|Hgt].
      * rewrite decide_True by lia.
        replace (idx - i)%nat with (S (idx - S i)) by lia. done.
      * by rewrite decide_False by lia.
Qed.

Lemma blank_labels_false (os : list OptionIn) :
  existsb (λ opt, negb (truthy (trim (opt_label opt)))) os = false ↔
  ∀ o, o ∈ os → ¬ whitespace_only (opt_label o).
Proof.
  split.
  - intros Hf o Hin Hw.
    assert (existsb (λ opt, negb (truthy (trim (opt_label opt)))) os = true) as Ht.
    { apply existsb_exists. exists o. split; [by apply list_elem_of_In|].
      apply negb_true_iff. by apply trim_blank. }
    congruence.
  - intros Hall. destruct (existsb _ os) eqn:E; [|done].
    apply existsb_exists in E as (o & Hin & Ho).
    destruct (Hall o); [by apply list_elem_of_In|].
    apply trim_blank. by apply negb_true_iff.
Qed.

Section Editor.

Variable rejects : stmt → tables → option string.

Lemma GET_keeps_db (c : client) : db (GET rejects c).2 = db c.
Proof.
  unfold GET, try_catch, bind, execute.
  by destruct (rejects SelectQuestionsWithOptions (db c)).
Qed.

Lemma saved_body_valid (q : Page.Question) :
  (∀ o, o ∈ Page.options q → ¬ whitespace_only (opt_label o)) →
  some_blank_label (Page.request_body q) = false.
Proof.
  intros Hvalid. apply some_blank_label_false.
  intros os o [= <-] Hin. by apply Hvalid.
Qed.

(** The three answers of a valid request. *)
Lemma POST_valid_status (b : QuestionIn) (c : client) :
  some_blank_label b = false →
  status (POST rejects b c).1 = 201%nat ∨ status (POST rejects b c).1 = 500%nat.
Proof.
  intros Hblank. destruct (POST rejects b c) as [r c'] eqn:H. simpl.
  pose proof (POST_any rejects b c c' r Hblank H) as Hany.
  destruct (rejects (InsertQuestion (question_params b)) (db c)).
  - destruct Hany as [-> _]. by right.
  - destruct Hany as (n & _ & _ & _ & [[-> _]|(e & s & t & -> & _)]);
      [by left | by right].
Qed.

Lemma PUT_valid_status (b : QuestionIn) (c : client) (qid : Z) :
  q_id b = Some qid → some_blank_label b = false →
  status (PUT rejects b c).1 = 200%nat ∨ status (PUT rejects b c).1 = 500%nat.
Proof.
  intros Hid Hblank. destruct (PUT rejects b c) as [r c'] eqn:H. simpl.
  pose proof (PUT_any rejects b c c' r qid Hid Hblank H) as Hany.
  destruct (rejects (UpdateQuestion (question_params b) qid) (db c)).
  - destruct Hany as [-> _]. by right.
  - destruct Hany as (_ & [->|(e & s & t & -> & _)]); [by left | by right].
Qed.

(** X21: the editor does not send a working copy with a blank option
    label: [saveQuestion] leaves the page and the store as they are. *)
Theorem saveQuestion_blocks_blank_label (st : Page.State) (c : client)
    (q : Page.Question) (o : OptionIn) :
  Page.selectedQuestion st = Some q →
  o ∈ Page.options q → whitespace_only (opt_label o) →
  Page.saveQuestion rejects st c = (st, c).
Proof.
  intros Hsel Hin Hw. unfold Page.saveQuestion. rewrite Hsel.
  destruct (existsb _ (Page.options q)) eqn:E; [done|].
  by destruct (proj1 (blank_labels_false (Page.options q)) E o Hin).
Qed.

(** X22: the request the editor sends for a working copy without blank
    label is never answered 400: the server repeats the check of the
    editor, and the editor sends a PUT only with an id. *)
Theorem editor_request_never_400 (q : Page.Question) (c : client) :
  (∀ o, o ∈ Page.options q → ¬ whitespace_only (opt_label o)) →
  status (Page.submit rejects q c).1 ≠ 400%nat.
Proof.
  intros Hvalid. pose proof (saved_body_valid q Hvalid) as Hblank.
  unfold Page.submit. destruct (Page.id q) as [k|] eqn:Hid.
  - destruct (k =? 0).
    + destruct (POST_valid_status _ c Hblank) as [-> | ->]; done.
    + destruct (PUT_valid_status (Page.request_body q) c k Hid Hblank)
        as [-> | ->]; done.
  - destruct (POST_valid_status _ c Hblank) as [-> | ->]; done.
Qed.

(** X23: saving a new question.  On a store that accepts the statements,
    [saveQuestion] on a working copy without id and without blank label
    closes the modal, and the refreshed list shows the question under a new
    id with the fields of the working copy. *)
Theorem saveQuestion_creates_and_lists (st : Page.State) (c : client)
    (q : Page.Question) :
  (∀ s t, rejects s t = None) →
  Page.selectedQuestion st = Some q → Page.id q = None →
  (∀ o, o ∈ Page.options q → ¬ whitespace_only (opt_label o)) →
  Page.editModalOpen (Page.saveQuestion rejects st c).1 = false ∧
  ∃ out, out ∈ Page.questions (Page.saveQuestion rejects st c).1 ∧
    questions (db c) !! out_id out = None ∧
    out_field out = Page.field q ∧ out_text out = Page.text q ∧
    out_subtext out = Page.subtext q ∧ out_type out = Page.type q ∧
    out_hint out = Page.hint q ∧
    out_validationKey out = Page.validationKey q ∧
    out_next_question_id out = Page.next_question_id q.
Proof.
  intros Hacc Hsel Hid Hvalid.
  pose proof (saved_body_valid q Hvalid) as Hblank.
  unfold Page.saveQuestion. rewrite Hsel.
  rewrite (proj2 (blank_labels_false _) Hvalid).
  unfold Page.submit. rewrite Hid.
  destruct (POST rejects (Page.request_body q) c) as [r c1] eqn:Hpost.
  pose proof (POST_any rejects _ c c1 r Hblank Hpost) as Hany.
  rewrite Hacc in Hany.
  destruct Hany as (n & _ & Hq & _ & [[-> _]|(e & s & t & _ & Hs)]);
    [|by rewrite Hacc in Hs].
  simpl. unfold Page.fetchQuestions. rewrite GET_accepted by apply Hacc. simpl.
  split; [done|].
  exists (question_of_row (select_row (question_options (db c1))
            (new_rowid (questions (db c)), question_params (Page.request_body q)))).
  split.
  - apply (list_elem_of_fmap_2
             (question_of_row ∘ select_row (question_options (db c1)))).
    apply elem_of_map_to_list. by rewrite Hq, lookup_insert_eq.
  - simpl. split; [apply new_rowid_fresh | done].
Qed.

(** X24: [removeOption] removes the option at the given index from the
    working copy, keeps the others in their order and the other fields as
    they are; an index outside the list removes nothing. *)
Theorem removeOption_deletes_index (idx : nat) (st : Page.State) (q : Page.Question) :
  Page.selectedQuestion st = Some q →
  Page.removeOption idx st
  = Page.setSelectedQuestion
      (Some (Page.with_options q (delete idx (Page.options q)))) st ∧
  (length (Page.options q) ≤ idx → Page.removeOption idx st = st)%nat.
Proof.
  intros Hsel. unfold Page.removeOption. rewrite Hsel.
  rewrite filter_index_delete. rewrite decide_True by lia.
  rewrite Nat.sub_0_r. split; [done|].
  intros Hge. rewrite delete_take_drop.
  rewrite take_ge by done. rewrite drop_ge by lia. rewrite app_nil_r.
  destruct st as [qs opened sel], q. simpl in *. by subst.
Qed.

(** X25: an option added by [addOption] and removed again by [removeOption]
    at its index leaves the page as it was. *)
Theorem removeOption_addOption (st : Page.State) (q : Page.Question) :
  Page.selectedQuestion st = Some q →
  Page.removeOption (length (Page.options q)) (Page.addOption st) = st.
Proof.
  intros Hsel. unfold Page.addOption. rewrite Hsel.
  unfold Page.removeOption. simpl.
  rewrite filter_index_delete. rewrite decide_True by lia.
  rewrite Nat.sub_0_r. rewrite delete_middle, app_nil_r.
  destruct st as [qs opened sel], q. simpl in *. by subst.
Qed.

(** X26: a removal in the editor becomes a delete in the store.  When an
    option with an id is removed from the working copy of a stored question
    and the save goes through (the modal closes), the option row with that
    id is gone, provided it belonged to the question, some option remains,
    no remaining option carries that id, and the ids are exact. *)
Theorem removed_option_is_deleted_on_save (st st' : Page.State) (c c' : client)
    (q : Page.Question) (qid : Z) (idx : nat) (o : OptionIn) (k : Z)
    (old : option_row) :
  Page.editModalOpen st = true →
  Page.selectedQuestion st = Some q →
  Page.id q = Some qid → qid ≠ 0 →
  Page.options q !! idx = Some o → opt_id o = Some k →
  delete idx (Page.options q) ≠ [] →
  (∀ o', o' ∈ delete idx (Page.options q) → opt_id o' ≠ Some k) →
  exact_ids (question_options (db c)) (delete idx (Page.options q)) →
  question_options (db c) !! k = Some old → or_question_id old = qid →
  Page.saveQuestion rejects (Page.removeOption idx st) c = (st', c') →
  Page.editModalOpen st' = false →
  question_options (db c') !! k = None.
Proof.
  intros Hopen Hsel Hid Hqid Ho Hk Hrest Hno Hexact Hold Howner Hsave Hclosed.
  unfold Page.removeOption in Hsave. rewrite Hsel in Hsave.
  rewrite filter_index_delete in Hsave. rewrite decide_True in Hsave by lia.
  rewrite Nat.sub_0_r in Hsave.
  unfold Page.saveQuestion in Hsave. simpl in Hsave.
  destruct (existsb _ (delete idx (Page.options q))) eqn:Hblank.
  { injection Hsave as <- <-. simpl in Hclosed. congruence. }
  unfold Page.submit in Hsave. simpl in Hsave. rewrite Hid in Hsave.
  destruct (Z.eqb_spec qid 0) as [|_]; [done|].
  set (b := Page.request_body (Page.with_options q (delete idx (Page.options q))))
    in *.
  destruct (PUT rejects b c) as [r c1] eqn:Hput.
  assert (q_id b = Some qid) as Hbid by done.
  assert (some_blank_label b = false) as Hbblank by done.
  destruct (PUT_valid_status b c qid Hbid Hbblank) as [Hst|Hst];
    rewrite Hput in Hst; simpl in Hst.
  - unfold Page.ok in Hsave. rewrite Hst in Hsave. simpl in Hsave.
    unfold Page.fetchQuestions in Hsave.
    pose proof (GET_keeps_db c1) as Hdb.
    destruct (GET rejects c1) as [res c2]. injection Hsave as <- <-.
    simpl in Hdb. rewrite Hdb.
    destruct (PUT_200 rejects b c c1 r Hput Hst)
      as (qid' & seen & Hid' & _ & _ & _ & _ & Hopts & _).
    assert (qid' = qid) as -> by congruence.
    rewrite Hopts. by apply (reconcile_unlisted qid _ _ k old).
  - unfold Page.ok in Hsave. rewrite Hst in Hsave. simpl in Hsave.
    injection Hsave as <- <-. simpl in Hclosed. congruence.
Qed.

End Editor.

(** ** The further properties on the sample store *)

Ltac split_elems H :=
  repeat (apply elem_of_cons in H as [->|H]); [.. | by apply elem_of_nil in H].

Ltac not_blank :=
  let Hw := fresh "Hw" in
  intros Hw; simpl in Hw; destruct Hw as [Hw _]; vm_compute in Hw; discriminate Hw.

Lemma server_error_only_from_store_witness :
  (status failed_update.1 = 500%nat ∧
   PUT reject_option_writes reworded_payload sample_client
     = (failed_update.1, failed_update.2)) ∧
  ∃ e s qid, q_id reworded_payload = Some qid ∧
    body failed_update.1 = ErrorBody e ∧
    reject_option_writes s (db failed_update.2) = Some e ∧
    (s = UpdateQuestion (question_params reworded_payload) qid ∨
     (∃ o, o ∈ default [] (q_options reworded_payload) ∧
           s = UpsertOption (opt_id o) (option_params qid o)) ∨
     ∃ seenIds, s = DeleteOptionsNotIn qid seenIds).
Proof.
  assert (status failed_update.1 = 500%nat) as H1 by (vm_compute; reflexivity).
  assert (PUT reject_option_writes reworded_payload sample_client
          = (failed_update.1, failed_update.2)) as H2 by apply surjective_pairing.
  split; [by split|].
  exact (proj1 (proj2 (proj2
           (server_error_only_from_store reject_option_writes sample_client _ _ H1)))
           reworded_payload H2).
Defined.

Lemma GET_lists_every_question_witness :
  accept_all SelectQuestionsWithOptions (db sample_client) = None ∧
  ∃ listed : list QuestionOut,
    (GET accept_all sample_client).1
      = {| status := 200; body := QuestionsBody listed |} ∧
    db (GET accept_all sample_client).2 = db sample_client ∧
    length listed = size (questions (db sample_client)) ∧
    NoDup (out_id <$> listed) ∧
    ∀ k q,
      questions (db sample_client) !! k = Some q ↔
      ∃ out, out ∈ listed ∧ out_id out = k ∧
        out_field out = qr_field q ∧ out_text out = qr_text q ∧
        out_subtext out = qr_subtext q ∧ out_type out = qr_type q ∧
        out_hint out = qr_hint q ∧
        out_validationKey out = qr_validation_key q ∧
        out_input out = qr_input_config q ∧
        out_next_question_id out = qr_next_question_id q.
Proof.
  assert (accept_all SelectQuestionsWithOptions (db sample_client) = None) as H1
    by reflexivity.
  split; [done|].
  exact (GET_lists_every_question accept_all sample_client H1).
Defined.


Lemma GET_options_never_empty_witness :
  ((GET accept_all created_age.2).1
     = {| status := 200;
          body := QuestionsBody
            match body (GET accept_all created_age.2).1 with
            | QuestionsBody listed => listed
            | _ => []
            end |} ∧
   ∃ out, out_id out = 3 ∧
     out ∈ match body (GET accept_all created_age.2).1 with
           | QuestionsBody listed => listed
           | _ => []
           end ∧
     ∃ items : list json,
       out_options out = JArr items ∧ items ≠ [] ∧
       (null_option ∈ items ↔
        ∀ key row, question_options (db created_age.2) !! key = Some row →
          or_question_id row ≠ out_id out) ∧
       (null_option ∈ items → items = [null_option])).
Proof.
  assert ((GET accept_all created_age.2).1
          = {| status := 200;
               body := QuestionsBody
                 match body (GET accept_all created_age.2).1 with
                 | QuestionsBody listed => listed
                 | _ => []
                 end |}) as H1 by (vm_compute; reflexivity).
  split; [done|].
  exists (question_of_row
            (select_row (question_options (db created_age.2))
               (3, question_params age_question))).
  split; [reflexivity|].
  assert (question_of_row
            (select_row (question_options (db created_age.2))
               (3, question_params age_question))
          ∈ match body (GET accept_all created_age.2).1 with
            | QuestionsBody listed => listed
            | _ => []
            end) as H2.
  { apply list_elem_of_In. vm_compute. auto 10. }
  split; [done|].
  exact (GET_options_never_empty accept_all created_age.2 _ _ H1 H2).
Defined.

Lemma POST_returns_created_row_witness :
  (POST accept_all age_question sample_client = (created_age.1, created_age.2) ∧
   status created_age.1 = 201%nat) ∧
  ∃ row : Row,
    body created_age.1 = RowBody (Some row) ∧
    row_options row = None ∧
    questions (db sample_client) !! row_id row = None ∧
    questions (db created_age.2) !! row_id row = Some (row_cols row) ∧
    qr_field (row_cols row) = q_field age_question ∧
    qr_text (row_cols row) = q_text age_question ∧
    qr_type (row_cols row) = q_type age_question.
Proof.
  assert (POST accept_all age_question sample_client = (created_age.1, created_age.2))
    as H1 by apply surjective_pairing.
  assert (status created_age.1 = 201%nat) as H2 by (vm_compute; reflexivity).
  split; [by split|].
  exact (POST_returns_created_row accept_all age_question sample_client _ _ H1 H2).
Defined.

Lemma POST_twice_creates_two_rows_witness :
  (POST accept_all age_question sample_client = (created_age.1, created_age.2) ∧
   status created_age.1 = 201%nat ∧
   POST accept_all age_question created_age.2 = (created_twice.1, created_twice.2) ∧
   status created_twice.1 = 201%nat) ∧
  ∃ (k : Z) (row : question_row),
    questions (db sample_client) !! k = None ∧
    questions (db sample_client) !! (k + 1) = None ∧
    questions (db created_twice.2) !! k = Some row ∧
    questions (db created_twice.2) !! (k + 1) = Some row ∧
    size (questions (db created_twice.2)) = S (S (size (questions (db sample_client)))).
Proof.
  assert (POST accept_all age_question sample_client = (created_age.1, created_age.2))
    as H1 by apply surjective_pairing.
  assert (status created_age.1 = 201%nat) as H2 by (vm_compute; reflexivity).
  assert (POST accept_all age_question created_age.2
          = (created_twice.1, created_twice.2)) as H3 by apply surjective_pairing.
  assert (status created_twice.1 = 201%nat) as H4 by (vm_compute; reflexivity).
  split; [by repeat split|].
  exact (POST_twice_creates_two_rows accept_all age_question sample_client _ _ _ _
           H1 H2 H3 H4).
Defined.

Lemma POST_failure_keeps_question_witness :
  (reject_label_B
     (InsertQuestion
        (question_params (colour_question None [new_option "A"; new_option "B"])))
     (db empty_client) = None ∧
   POST reject_label_B (colour_question None [new_option "A"; new_option "B"])
     empty_client = (failed_second.1, failed_second.2) ∧
   status failed_second.1 = 500%nat) ∧
  ∃ (qId : Z) (n : nat),
    questions (db empty_client) !! qId = None ∧
    questions (db failed_second.2) !! qId
      = Some (question_params (colour_question None [new_option "A"; new_option "B"])) ∧
    (n ≤ length (default []
                   (q_options (colour_question None [new_option "A"; new_option "B"]))))%nat ∧
    executed failed_second.2 = executed empty_client
      ++ InsertQuestion
           (question_params (colour_question None [new_option "A"; new_option "B"]))
      :: (InsertOption ∘ option_params qId
            <$> take n (default []
                  (q_options (colour_question None [new_option "A"; new_option "B"])))) ∧
    (∀ i o, (i < n)%nat →
       default [] (q_options (colour_question None [new_option "A"; new_option "B"])) !! i
         = Some o →
       question_options (db empty_client)
         !! (new_rowid (question_options (db empty_client)) + Z.of_nat i) = None ∧
       question_options (db failed_second.2)
         !! (new_rowid (question_options (db empty_client)) + Z.of_nat i)
         = Some (option_params qId o)) ∧
    (∀ k, new_rowid (question_options (db empty_client)) + Z.of_nat n ≤ k →
       question_options (db failed_second.2) !! k = None).
Proof.
  assert (reject_label_B
            (InsertQuestion
               (question_params (colour_question None [new_option "A"; new_option "B"])))
            (db empty_client) = None) as H1 by reflexivity.
  assert (POST reject_label_B (colour_question None [new_option "A"; new_option "B"])
            empty_client = (failed_second.1, failed_second.2)) as H2
    by apply surjective_pairing.
  assert (status failed_second.1 = 500%nat) as H3 by (vm_compute; reflexivity).
  split; [by repeat split|].
  exact (POST_failure_keeps_question reject_label_B
           (colour_question None [new_option "A"; new_option "B"]) empty_client _ _
           H1 H2 H3).
Defined.

Lemma POST_keeps_stored_rows_witness :
  POST accept_all age_question sample_client = (created_age.1, created_age.2) ∧
  (∀ k q, questions (db sample_client) !! k = Some q →
     questions (db created_age.2) !! k = Some q) ∧
  (∀ k o, question_options (db sample_client) !! k = Some o →
     question_options (db created_age.2) !! k = Some o).
Proof.
  assert (POST accept_all age_question sample_client = (created_age.1, created_age.2))
    as H1 by apply surjective_pairing.
  split; [done|].
  exact (POST_keeps_stored_rows accept_all age_question sample_client _ _ H1).
Defined.


Lemma PUT_deletes_unlisted_option_witness :
  (q_id keep_first_payload = Some 1 ∧
   q_options keep_first_payload = Some [old_option 1 "A2"] ∧
   [old_option 1 "A2"] ≠ [] ∧
   exact_ids (question_options (db sample_client)) [old_option 1 "A2"] ∧
   question_options (db sample_client) !! 2 = Some (stored_option 1 "B") ∧
   or_question_id (stored_option 1 "B") = 1 ∧
   (∀ o, o ∈ [old_option 1 "A2"] → opt_id o ≠ Some 2) ∧
   PUT accept_all keep_first_payload sample_client = (kept_first.1, kept_first.2) ∧
   status kept_first.1 = 200%nat) ∧
  question_options (db kept_first.2) !! 2 = None.
Proof.
  assert (q_id keep_first_payload = Some 1) as H1 by reflexivity.
  assert (q_options keep_first_payload = Some [old_option 1 "A2"]) as H2 by reflexivity.
  assert ([old_option 1 "A2"] ≠ []) as H3 by discriminate.
  assert (exact_ids (question_options (db sample_client)) [old_option 1 "A2"]) as He
    by (apply exact_idsb_sound; vm_compute; reflexivity).
  assert (question_options (db sample_client) !! 2 = Some (stored_option 1 "B")) as H4
    by (vm_compute; reflexivity).
  assert (or_question_id (stored_option 1 "B") = 1) as H5 by reflexivity.
  assert (∀ o, o ∈ [old_option 1 "A2"] → opt_id o ≠ Some 2) as H6.
  { intros o Hin. split_elems Hin. discriminate. }
  assert (PUT accept_all keep_first_payload sample_client = (kept_first.1, kept_first.2))
    as H7 by apply surjective_pairing.
  assert (status kept_first.1 = 200%nat) as H8 by (vm_compute; reflexivity).
  split; [tauto|].
  exact (PUT_deletes_unlisted_option accept_all keep_first_payload sample_client _ _
           1 _ 2 _ H1 H2 H3 He H4 H5 H6 H7 H8).
Defined.

Lemma PUT_updates_listed_option_witness :
  (q_id relabel_payload = Some 1 ∧
   q_options relabel_payload = Some ([] ++ old_option 1 "A2" :: [new_option "D"]) ∧
   opt_id (old_option 1 "A2") = Some 1 ∧
   (∀ o', o' ∈ [new_option "D"] → opt_id o' ≠ Some 1) ∧
   question_options (db sample_client) !! 1 = Some (stored_option 1 "A") ∧
   PUT accept_all relabel_payload sample_client = (relabelled.1, relabelled.2) ∧
   status relabelled.1 = 200%nat) ∧
  question_options (db relabelled.2) !! 1 =
    Some {| or_question_id := 1; or_label := "A2";
            or_next_question_id := Some (-1); or_price_modifier := Some 5 |}.
Proof.
  assert (q_id relabel_payload = Some 1) as H1 by reflexivity.
  assert (q_options relabel_payload
          = Some ([] ++ old_option 1 "A2" :: [new_option "D"])) as H2 by reflexivity.
  assert (opt_id (old_option 1 "A2") = Some 1) as H3 by reflexivity.
  assert (∀ o', o' ∈ [new_option "D"] → opt_id o' ≠ Some 1) as H4.
  { intros o Hin. split_elems Hin. discriminate. }
  assert (question_options (db sample_client) !! 1 = Some (stored_option 1 "A")) as H5
    by (vm_compute; reflexivity).
  assert (PUT accept_all relabel_payload sample_client = (relabelled.1, relabelled.2))
    as H6 by apply surjective_pairing.
  assert (status relabelled.1 = 200%nat) as H7 by (vm_compute; reflexivity).
  split; [by repeat split|].
  exact (PUT_updates_listed_option accept_all relabel_payload sample_client _ _
           1 _ _ _ 1 _ H1 H2 H3 H4 H5 H6 H7).
Defined.

Lemma PUT_keeps_rows_of_other_questions_witness :
  (q_id relabel_payload = Some 1 ∧
   question_options (db sample_client) !! 3 = Some (stored_option 2 "C") ∧
   or_question_id (stored_option 2 "C") ≠ 1 ∧
   (∀ os o, q_options relabel_payload = Some os → o ∈ os → opt_id o ≠ Some 3) ∧
   PUT accept_all relabel_payload sample_client = (relabelled.1, relabelled.2) ∧
   status relabelled.1 = 200%nat) ∧
  question_options (db relabelled.2) !! 3 = Some (stored_option 2 "C").
Proof.
  assert (q_id relabel_payload = Some 1) as H1 by reflexivity.
  assert (question_options (db sample_client) !! 3 = Some (stored_option 2 "C")) as H2
    by (vm_compute; reflexivity).
  assert (or_question_id (stored_option 2 "C") ≠ 1) as H3 by discriminate.
  assert (∀ os o, q_options relabel_payload = Some os → o ∈ os → opt_id o ≠ Some 3)
    as H4.
  { intros os o [= <-] Hin. split_elems Hin; discriminate. }
  assert (PUT accept_all relabel_payload sample_client = (relabelled.1, relabelled.2))
    as H5 by apply surjective_pairing.
  assert (status relabelled.1 = 200%nat) as H6 by (vm_compute; reflexivity).
  split; [by repeat split|].
  exact (PUT_keeps_rows_of_other_questions accept_all relabel_payload sample_client _ _
           1 3 _ H1 H2 H3 H4 H5 H6).
Defined.

Lemma PUT_keeps_owner_witness :
  (PUT accept_all foreign_payload sample_client
     = ((PUT accept_all foreign_payload sample_client).1,
        (PUT accept_all foreign_payload sample_client).2) ∧
   status (PUT accept_all foreign_payload sample_client).1 = 200%nat ∧
   question_options (db sample_client) !! 3 = Some (stored_option 2 "C") ∧
   question_options (db (PUT accept_all foreign_payload sample_client).2) !! 3
     = Some {| or_question_id := 2; or_label := "taken";
               or_next_question_id := Some (-1); or_price_modifier := Some 5 |}) ∧
  or_question_id {| or_question_id := 2; or_label := "taken";
                    or_next_question_id := Some (-1); or_price_modifier := Some 5 |}
  = or_question_id (stored_option 2 "C").
Proof.
  assert (PUT accept_all foreign_payload sample_client
          = ((PUT accept_all foreign_payload sample_client).1,
             (PUT accept_all foreign_payload sample_client).2)) as H1
    by apply surjective_pairing.
  assert (status (PUT accept_all foreign_payload sample_client).1 = 200%nat) as H2
    by (vm_compute; reflexivity).
  assert (question_options (db sample_client) !! 3 = Some (stored_option 2 "C")) as H3
    by (vm_compute; reflexivity).
  assert (question_options (db (PUT accept_all foreign_payload sample_client).2) !! 3
          = Some {| or_question_id := 2; or_label := "taken";
                    or_next_question_id := Some (-1); or_price_modifier := Some 5 |})
    as H4 by (vm_compute; reflexivity).
  split; [by repeat split|].
  exact (PUT_keeps_owner accept_all foreign_payload sample_client _ _ 3 _ _
           H1 H2 H3 H4).
Defined.

Lemma PUT_missing_question_orphans_option_witness :
  (q_id orphan_payload = Some 7 ∧
   q_options orphan_payload = Some [new_option "X"] ∧
   new_option "X" ∈ [new_option "X"] ∧
   opt_id (new_option "X") = None ∧
   exact_ids (question_options (db sample_client)) [new_option "X"] ∧
   questions (db sample_client) !! 7 = None ∧
   PUT accept_all orphan_payload sample_client = (orphaned.1, orphaned.2) ∧
   status orphaned.1 = 200%nat) ∧
  (questions (db orphaned.2) !! 7 = None ∧
   ∃ k row, question_options (db sample_client) !! k = None ∧
     question_options (db orphaned.2) !! k = Some row ∧ or_question_id row = 7).
Proof.
  assert (q_id orphan_payload = Some 7) as H1 by reflexivity.
  assert (q_options orphan_payload = Some [new_option "X"]) as H2 by reflexivity.
  assert (new_option "X" ∈ [new_option "X"]) as H3
    by (apply elem_of_cons; by left).
  assert (opt_id (new_option "X") = None) as H4 by reflexivity.
  assert (exact_ids (question_options (db sample_client)) [new_option "X"]) as He
    by (apply exact_idsb_sound; vm_compute; reflexivity).
  assert (questions (db sample_client) !! 7 = None) as H5 by (vm_compute; reflexivity).
  assert (PUT accept_all orphan_payload sample_client = (orphaned.1, orphaned.2))
    as H6 by apply surjective_pairing.
  assert (status orphaned.1 = 200%nat) as H7 by (vm_compute; reflexivity).
  split; [tauto|].
  exact (PUT_missing_question_orphans_option accept_all orphan_payload sample_client
           _ _ 7 _ _ H1 H2 H3 H4 He H5 H6 H7).
Defined.

Lemma PUT_absent_options_keeps_rows_witness :
  (q_options scalar_payload = None ∧
   PUT accept_all scalar_payload sample_client
     = ((PUT accept_all scalar_payload sample_client).1,
        (PUT accept_all scalar_payload sample_client).2)) ∧
  (question_options (db (PUT accept_all scalar_payload sample_client).2)
     = question_options (db sample_client) ∧
   ∃ sent : list stmt,
     executed (PUT accept_all scalar_payload sample_client).2
       = executed sample_client ++ sent ∧
     ∀ qid ids, DeleteOptionsNotIn qid ids ∉ sent).
Proof.
  assert (q_options scalar_payload = None) as H1 by reflexivity.
  assert (PUT accept_all scalar_payload sample_client
          = ((PUT accept_all scalar_payload sample_client).1,
             (PUT accept_all scalar_payload sample_client).2)) as H2
    by apply surjective_pairing.
  split; [by split|].
  exact (PUT_absent_options_keeps_rows accept_all scalar_payload sample_client _ _
           H1 H2).
Defined.

Lemma PUT_failure_keeps_question_update_witness :
  (q_id reworded_payload = Some 1 ∧
   questions (db sample_client) !! 1
     = Some (question_params (colour_question None [])) ∧
   reject_option_writes (UpdateQuestion (question_params reworded_payload) 1)
     (db sample_client) = None ∧
   PUT reject_option_writes reworded_payload sample_client
     = (failed_update.1, failed_update.2) ∧
   status failed_update.1 = 500%nat) ∧
  questions (db failed_update.2) !! 1 = Some (question_params reworded_payload).
Proof.
  assert (q_id reworded_payload = Some 1) as H1 by reflexivity.
  assert (questions (db sample_client) !! 1
          = Some (question_params (colour_question None []))) as H2
    by (vm_compute; reflexivity).
  assert (reject_option_writes (UpdateQuestion (question_params reworded_payload) 1)
            (db sample_client) = None) as H3 by reflexivity.
  assert (PUT reject_option_writes reworded_payload sample_client
          = (failed_update.1, failed_update.2)) as H4 by apply surjective_pairing.
  assert (status failed_update.1 = 500%nat) as H5 by (vm_compute; reflexivity).
  split; [by repeat split|].
  exact (PUT_failure_keeps_question_update reject_option_writes reworded_payload
           sample_client _ _ 1 _ H1 H2 H3 H4 H5).
Defined.

Lemma DELETE_removes_question_witness :
  (DELETE accept_all (Some 1) sample_client = (deleted_first.1, deleted_first.2) ∧
   status deleted_first.1 = 200%nat) ∧
  (questions (db deleted_first.2) !! 1 = None ∧
   (∀ k, k ≠ 1 → questions (db deleted_first.2) !! k = questions (db sample_client) !! k) ∧
   (∀ k row, question_options (db sample_client) !! k = Some row →
      or_question_id row ≠ 1 → question_options (db deleted_first.2) !! k = Some row)).
Proof.
  assert (DELETE accept_all (Some 1) sample_client = (deleted_first.1, deleted_first.2))
    as H1 by apply surjective_pairing.
  assert (status deleted_first.1 = 200%nat) as H2 by (vm_compute; reflexivity).
  split; [by split|].
  exact (proj1 (DELETE_removes_question accept_all 1 sample_client _ _ H1) H2).
Defined.

Lemma POST_then_DELETE_restores_questions_witness :
  (POST accept_all age_question sample_client = (created_age.1, created_age.2) ∧
   body created_age.1
     = RowBody (Some {| row_id := 3; row_cols := question_params age_question;
                        row_options := None |}) ∧
   DELETE accept_all (Some 3) created_age.2
     = ((DELETE accept_all (Some 3) created_age.2).1,
        (DELETE accept_all (Some 3) created_age.2).2) ∧
   status (DELETE accept_all (Some 3) created_age.2).1 = 200%nat) ∧
  (questions (db (DELETE accept_all (Some 3) created_age.2).2)
     = questions (db sample_client) ∧
   ∀ k o, question_options (db sample_client) !! k = Some o →
     or_question_id o ≠ 3 →
     question_options (db (DELETE accept_all (Some 3) created_age.2).2) !! k = Some o).
Proof.
  assert (POST accept_all age_question sample_client = (created_age.1, created_age.2))
    as H1 by apply surjective_pairing.
  assert (body created_age.1
          = RowBody (Some {| row_id := 3; row_cols := question_params age_question;
                             row_options := None |})) as H2
    by (vm_compute; reflexivity).
  assert (DELETE accept_all (Some 3) created_age.2
          = ((DELETE accept_all (Some 3) created_age.2).1,
             (DELETE accept_all (Some 3) created_age.2).2)) as H3
    by apply surjective_pairing.
  assert (status (DELETE accept_all (Some 3) created_age.2).1 = 200%nat) as H4
    by (vm_compute; reflexivity).
  split; [by repeat split|].
  exact (POST_then_DELETE_restores_questions accept_all age_question sample_client
           _ _ _ _ _ H1 H2 H3 H4).
Defined.

Lemma DELETE_twice_witness :
  (DELETE accept_all (Some 1) sample_client = (deleted_first.1, deleted_first.2) ∧
   status deleted_first.1 = 200%nat ∧
   DELETE accept_all (Some 1) deleted_first.2
     = ((DELETE accept_all (Some 1) deleted_first.2).1,
        (DELETE accept_all (Some 1) deleted_first.2).2)) ∧
  db (DELETE accept_all (Some 1) deleted_first.2).2 = db deleted_first.2.
Proof.
  assert (DELETE accept_all (Some 1) sample_client = (deleted_first.1, deleted_first.2))
    as H1 by apply surjective_pairing.
  assert (status deleted_first.1 = 200%nat) as H2 by (vm_compute; reflexivity).
  assert (DELETE accept_all (Some 1) deleted_first.2
          = ((DELETE accept_all (Some 1) deleted_first.2).1,
             (DELETE accept_all (Some 1) deleted_first.2).2)) as H3
    by apply surjective_pairing.
  split; [by repeat split|].
  exact (DELETE_twice accept_all (Some 1) sample_client _ _ _ _ H1 H2 H3).
Defined.

Lemma saveQuestion_blocks_blank_label_witness :
  (Page.selectedQuestion (editing blank_copy) = Some blank_copy ∧
   new_option " " ∈ Page.options blank_copy ∧
   whitespace_only (opt_label (new_option " "))) ∧
  Page.saveQuestion accept_all (editing blank_copy) sample_client
  = (editing blank_copy, sample_client).
Proof.
  assert (Page.selectedQuestion (editing blank_copy) = Some blank_copy) as H1
    by reflexivity.
  assert (new_option " " ∈ Page.options blank_copy) as H2.
  { apply elem_of_cons. right. apply elem_of_cons. by left. }
  assert (whitespace_only (opt_label (new_option " "))) as H3
    by (vm_compute; tauto).
  split; [by repeat split|].
  exact (saveQuestion_blocks_blank_label accept_all (editing blank_copy) sample_client
           _ _ H1 H2 H3).
Defined.

Lemma editor_request_never_400_witness :
  (∀ o, o ∈ Page.options colour_copy → ¬ whitespace_only (opt_label o)) ∧
  status (Page.submit accept_all colour_copy sample_client).1 ≠ 400%nat.
Proof.
  assert (∀ o, o ∈ Page.options colour_copy → ¬ whitespace_only (opt_label o)) as H1.
  { intros o Hin. simpl in Hin. split_elems Hin; not_blank. }
  split; [done|].
  exact (editor_request_never_400 accept_all colour_copy sample_client H1).
Defined.

Lemma saveQuestion_creates_and_lists_witness :
  ((∀ s t, accept_all s t = None) ∧
   Page.selectedQuestion (editing Page.blankQuestion) = Some Page.blankQuestion ∧
   Page.id Page.blankQuestion = None ∧
   (∀ o, o ∈ Page.options Page.blankQuestion → ¬ whitespace_only (opt_label o))) ∧
  (Page.editModalOpen
     (Page.saveQuestion accept_all (editing Page.blankQuestion) sample_client).1 = false ∧
   ∃ out,
     out ∈ Page.questions
             (Page.saveQuestion accept_all (editing Page.blankQuestion) sample_client).1 ∧
     questions (db sample_client) !! out_id out = None ∧
     out_field out = Page.field Page.blankQuestion ∧
     out_text out = Page.text Page.blankQuestion ∧
     out_subtext out = Page.subtext Page.blankQuestion ∧
     out_type out = Page.type Page.blankQuestion ∧
     out_hint out = Page.hint Page.blankQuestion ∧
     out_validationKey out = Page.validationKey Page.blankQuestion ∧
     out_next_question_id out = Page.next_question_id Page.blankQuestion).
Proof.
  assert (∀ s t, accept_all s t = None) as H1 by reflexivity.
  assert (Page.selectedQuestion (editing Page.blankQuestion) = Some Page.blankQuestion)
    as H2 by reflexivity.
  assert (Page.id Page.blankQuestion = None) as H3 by reflexivity.
  assert (∀ o, o ∈ Page.options Page.blankQuestion → ¬ whitespace_only (opt_label o))
    as H4.
  { intros o Hin. by apply elem_of_nil in Hin. }
  split; [by repeat split|].
  exact (saveQuestion_creates_and_lists accept_all (editing Page.blankQuestion)
           sample_client _ H1 H2 H3 H4).
Defined.

Lemma removeOption_deletes_index_witness :
  Page.selectedQuestion (editing colour_copy) = Some colour_copy ∧
  Page.removeOption 0 (editing colour_copy)
  = Page.setSelectedQuestion
      (Some (Page.with_options colour_copy (delete 0%nat (Page.options colour_copy))))
      (editing colour_copy) ∧
  (length (Page.options colour_copy) ≤ 0 →
   Page.removeOption 0 (editing colour_copy) = editing colour_copy)%nat.
Proof.
  assert (Page.selectedQuestion (editing colour_copy) = Some colour_copy) as H1
    by reflexivity.
  split; [done|].
  exact (removeOption_deletes_index 0 (editing colour_copy) colour_copy H1).
Defined.

Lemma removeOption_addOption_witness :
  Page.selectedQuestion (editing colour_copy) = Some colour_copy ∧
  Page.removeOption (length (Page.options colour_copy))
    (Page.addOption (editing colour_copy))
  = editing colour_copy.
Proof.
  assert (Page.selectedQuestion (editing colour_copy) = Some colour_copy) as H1
    by reflexivity.
  split; [done|].
  exact (removeOption_addOption (editing colour_copy) colour_copy H1).
Defined.

Lemma removed_option_is_deleted_on_save_witness :
  (Page.editModalOpen (editing colour_copy) = true ∧
   Page.selectedQuestion (editing colour_copy) = Some colour_copy ∧
   Page.id colour_copy = Some 1 ∧ 1 ≠ 0 ∧
   Page.options colour_copy !! 1%nat = Some (old_option 2 "B") ∧
   opt_id (old_option 2 "B") = Some 2 ∧
   delete 1%nat (Page.options colour_copy) ≠ [] ∧
   (∀ o', o' ∈ delete 1%nat (Page.options colour_copy) → opt_id o' ≠ Some 2) ∧
   exact_ids (question_options (db sample_client))
     (delete 1%nat (Page.options colour_copy)) ∧
   question_options (db sample_client) !! 2 = Some (stored_option 1 "B") ∧
   or_question_id (stored_option 1 "B") = 1 ∧
   Page.saveQuestion accept_all (Page.removeOption 1 (editing colour_copy)) sample_client
     = ((Page.saveQuestion accept_all (Page.removeOption 1 (editing colour_copy))
           sample_client).1,
        (Page.saveQuestion accept_all (Page.removeOption 1 (editing colour_copy))
           sample_client).2) ∧
   Page.editModalOpen
     (Page.saveQuestion accept_all (Page.removeOption 1 (editing colour_copy))
        sample_client).1 = false) ∧
  question_options
    (db (Page.saveQuestion accept_all (Page.removeOption 1 (editing colour_copy))
           sample_client).2) !! 2 = None.
Proof.
  assert (Page.editModalOpen (editing colour_copy) = true) as H1 by reflexivity.
  assert (Page.selectedQuestion (editing colour_copy) = Some colour_copy) as H2
    by reflexivity.
  assert (Page.id colour_copy = Some 1) as H3 by reflexivity.
  assert (1 ≠ 0) as H4 by discriminate.
  assert (Page.options colour_copy !! 1%nat = Some (old_option 2 "B")) as H5
    by reflexivity.
  assert (opt_id (old_option 2 "B") = Some 2) as H6 by reflexivity.
  assert (delete 1%nat (Page.options colour_copy) ≠ []) as H7 by discriminate.
  assert (∀ o', o' ∈ delete 1%nat (Page.options colour_copy) → opt_id o' ≠ Some 2)
    as H8.
  { intros o Hin. simpl in Hin. split_elems Hin. discriminate. }
  assert (exact_ids (question_options (db sample_client))
            (delete 1%nat (Page.options colour_copy))) as He
    by (apply exact_idsb_sound; vm_compute; reflexivity).
  assert (question_options (db sample_client) !! 2 = Some (stored_option 1 "B")) as H9
    by (vm_compute; reflexivity).
  assert (or_question_id (stored_option 1 "B") = 1) as H10 by reflexivity.
  assert (Page.saveQuestion accept_all (Page.removeOption 1 (editing colour_copy))
            sample_client
          = ((Page.saveQuestion accept_all (Page.removeOption 1 (editing colour_copy))
                sample_client).1,
             (Page.saveQuestion accept_all (Page.removeOption 1 (editing colour_copy))
                sample_client).2)) as H11 by apply surjective_pairing.
  assert (Page.editModalOpen
            (Page.saveQuestion accept_all (Page.removeOption 1 (editing colour_copy))
               sample_client).1 = false) as H12 by (vm_compute; reflexivity).
  split; [tauto|].
  exact (removed_option_is_deleted_on_save accept_all (editing colour_copy) _
           sample_client _ colour_copy 1 1 _ 2 _
           H1 H2 H3 H4 H5 H6 H7 H8 He H9 H10 H11 H12).
Defined.

Lemma PUT_reconciles_exact_ids_witness :
  (q_id relabel_payload = Some 1 ∧
   q_options relabel_payload = Some [old_option 1 "A2"; new_option "D"] ∧
   [old_option 1 "A2"; new_option "D"] ≠ [] ∧
   exact_ids (question_options (db sample_client))
     [old_option 1 "A2"; new_option "D"] ∧
   PUT accept_all relabel_payload sample_client = (relabelled.1, relabelled.2) ∧
   status relabelled.1 = 200%nat) ∧
  ∃ seenIds : list Z,
    last (executed relabelled.2) = Some (DeleteOptionsNotIn 1 seenIds) ∧
    length seenIds = length [old_option 1 "A2"; new_option "D"] ∧
    (∀ i o k, [old_option 1 "A2"; new_option "D"] !! i = Some o →
       opt_id o = Some k → seenIds !! i = Some k) ∧
    (∀ k old, question_options (db sample_client) !! k = Some old →
       or_question_id old = 1 → k ∉ seenIds →
       question_options (db relabelled.2) !! k = None) ∧
    (∀ k row, question_options (db relabelled.2) !! k = Some row →
       or_question_id row = 1 → k ∈ seenIds) ∧
    (∀ i o, [old_option 1 "A2"; new_option "D"] !! i = Some o → opt_id o = None →
       ∃ k row, seenIds !! i = Some k ∧
         question_options (db sample_client) !! k = None ∧
         question_options (db relabelled.2) !! k = Some row ∧
         or_question_id row = 1 ∧
         ((∀ o', o' ∈ [old_option 1 "A2"; new_option "D"] → opt_id o' ≠ Some k) →
          row = {| or_question_id := 1;
                   or_label := opt_label o;
                   or_next_question_id := opt_next_question_id o;
                   or_price_modifier :=
                     Some (match opt_price_modifier o with
                           | Some p => p
                           | None => 0
                           end) |})).
Proof.
  assert (q_id relabel_payload = Some 1) as H1 by reflexivity.
  assert (q_options relabel_payload = Some [old_option 1 "A2"; new_option "D"])
    as H2 by reflexivity.
  assert ([old_option 1 "A2"; new_option "D"] ≠ []) as H3 by discriminate.
  assert (exact_ids (question_options (db sample_client))
            [old_option 1 "A2"; new_option "D"]) as H4
    by (apply exact_idsb_sound; vm_compute; reflexivity).
  assert (PUT accept_all relabel_payload sample_client = (relabelled.1, relabelled.2))
    as H5 by apply surjective_pairing.
  assert (status relabelled.1 = 200%nat) as H6 by (vm_compute; reflexivity).
  split; [tauto|].
  exact (PUT_reconciles_exact_ids accept_all relabel_payload sample_client _ _ 1 _
           H1 H2 H3 H4 H5 H6).
Defined.
